(** * Color-Dominant: a shallow embedding of [color_dominant.py]

    The script extracts the dominant colours of images by clustering their
    pixels, memoises the result per path in a module-level dictionary,
    optionally shows the palette, walks directories, and averages palettes.

    The embedding keeps the shape of the Python code:
    - the module-level [color_cache] and the [logging] calls are the program
      state, threaded through a state-and-exception monad;
    - [try]/[except] is a combinator of that monad; an exception keeps the
      state changes made before it was raised, as in Python;
    - PIL, numpy, scikit-learn, the matplotlib window and the file system
      are external: they are fields of a record [Externals], reading and
      changing an abstract world that may also change between calls;
    - [matplotlib.colors.rgb2hex] is modelled on binary64 floats, the
      kernel's primitive floats, with Python's [round] (ties to even). *)

From Stdlib Require Import ZArith Lia List String Ascii Bool.
From Stdlib Require Import Floats.
From Stdlib Require Import HexadecimalString DecimalString.
From stdpp Require Import gmap strings list.

Open Scope Z_scope.

(** ** Exceptions and results *)

(** The two classes the handlers of [extract_colors] tell apart; the string
    is [str(e)].  [Exception] stands for every other subclass of Python's
    [Exception]. *)
Inductive exn : Type :=
  | FileNotFoundError (msg : string)
  | Exception (msg : string).

Definition exn_str (e : exn) : string :=
  match e with
  | FileNotFoundError msg => msg
  | Exception msg => msg
  end.

Inductive outcome (A : Type) : Type :=
  | Returned (a : A)
  | Raised (e : exn).
Arguments Returned {A} a.
Arguments Raised {A} e.

Definition outcome_bind {A B} (o : outcome A) (f : A -> outcome B) : outcome B :=
  match o with
  | Returned a => f a
  | Raised e => Raised e
  end.

(** A list comprehension whose element expression may raise: the first
    exception aborts the comprehension. *)
Fixpoint outcome_map {A B} (f : A -> outcome B) (l : list A) : outcome (list B) :=
  match l with
  | [] => Returned []
  | x :: l' =>
      outcome_bind (f x) (fun y =>
      outcome_bind (outcome_map f l') (fun ys => Returned (y :: ys)))
  end.

(** ** Strings *)

Module Str.

Definition lower_ascii (c : ascii) : ascii :=
  let n := nat_of_ascii c in
  if ((65 <=? n) && (n <=? 90))%nat then ascii_of_nat (n + 32) else c.

(** [str.lower] on the ASCII range. *)
Fixpoint lower (s : string) : string :=
  match s with
  | EmptyString => EmptyString
  | String c s' => String (lower_ascii c) (lower s')
  end.

Definition startswith (s p : string) : bool := String.prefix p s.

(** [s.endswith(suf)]: the last [len(suf)] characters of [s] are [suf]. *)
Definition endswith (s suf : string) : bool :=
  let n := String.length s in
  let k := String.length suf in
  ((k <=? n)%nat && String.eqb (String.substring (n - k) k s) suf).

(** [s.endswith(t)] for a tuple [t] of suffixes. *)
Definition endswith_any (s : string) (sufs : list string) : bool :=
  existsb (endswith s) sufs.

(** ["sep".join(l)] *)
Fixpoint join (sep : string) (l : list string) : string :=
  match l with
  | [] => EmptyString
  | [x] => x
  | x :: l' => x +:+ sep +:+ join sep l'
  end.

(** [str(n)] for a non-negative integer. *)
Definition of_nat (n : nat) : string :=
  DecimalString.NilZero.string_of_uint (Nat.to_uint n).

Definition newline : string := String (ascii_of_nat 10) EmptyString.

(** [s.split("\n")] *)
Fixpoint split_lines (s : string) : list string :=
  match s with
  | EmptyString => [EmptyString]
  | String c s' =>
      if Ascii.eqb c (ascii_of_nat 10) then EmptyString :: split_lines s'
      else
        match split_lines s' with
        | [] => [String c EmptyString]
        | l :: ls => String c l :: ls
        end
  end.

(** No line break in [s]. *)
Definition newline_free (s : string) : bool :=
  forallb (fun c => negb (Ascii.eqb c (ascii_of_nat 10))) (list_ascii_of_string s).

(** [s[a:b]] for [0 <= a <= b]. *)
Definition slice (a b : nat) (s : string) : string :=
  String.substring a (b - a) s.

End Str.

(** ** Colour strings *)

Definition is_lower_hex_digit (c : ascii) : bool :=
  let n := nat_of_ascii c in
  (((48 <=? n) && (n <=? 57)) || ((97 <=? n) && (n <=? 102)))%nat.

(** The pattern [^#[0-9a-f]{6}$] on a whole string. *)
Definition hex_color (s : string) : bool :=
  match s with
  | String c rest =>
      Ascii.eqb c "#" && (String.length rest =? 6)%nat
      && forallb is_lower_hex_digit (list_ascii_of_string rest)
  | EmptyString => false
  end.

(** ** [matplotlib.colors.rgb2hex] on binary64 *)

Definition rgb : Type := float * float * float.

Module Py.

(** The integer nearest to [m * 2^e], ties to even, for [m > 0]. *)
Definition round_half_even (m : positive) (e : Z) : Z :=
  if 0 <=? e then Z.pos m * 2 ^ e
  else
    let d := 2 ^ (- e) in
    let q := Z.pos m / d in
    let r := Z.pos m mod d in
    match 2 * r ?= d with
    | Lt => q
    | Gt => q + 1
    | Eq => if Z.even q then q else q + 1
    end.

(** [round(x)] of a Python float: an [int], ties to even; [nan] raises
    [ValueError] and an infinity raises [OverflowError]. *)
Definition round (x : float) : outcome Z :=
  match Prim2SF x with
  | S754_nan => Raised (Exception "cannot convert float NaN to integer")
  | S754_infinity _ => Raised (Exception "cannot convert float infinity to integer")
  | S754_zero _ => Returned 0
  | S754_finite s m e => Returned (cond_Zopp s (round_half_even m e))
  end.

Definition hex (n : N) : string :=
  HexadecimalString.NilZero.string_of_uint (N.to_hex_uint n).

(** [format(n, "02x")]: lower-case hexadecimal, sign first, padded with
    zeros to two characters. *)
Definition format_02x (n : Z) : string :=
  if n <? 0 then "-" +:+ hex (Z.to_N (- n))
  else
    let h := hex (Z.to_N n) in
    if (String.length h <? 2)%nat then "0" +:+ h else h.

Definition hex_digit_value (c : ascii) : option Z :=
  let n := Z.of_nat (nat_of_ascii c) in
  if (48 <=? n) && (n <=? 57) then Some (n - 48)
  else if (97 <=? n) && (n <=? 102) then Some (n - 87)
  else if (65 <=? n) && (n <=? 70) then Some (n - 55)
  else None.

Fixpoint hex_digits_value (acc : Z) (s : string) : option Z :=
  match s with
  | EmptyString => Some acc
  | String c s' =>
      match hex_digit_value c with
      | Some d => hex_digits_value (16 * acc + d) s'
      | None => None
      end
  end.

(** [int(s, 16)] on a string of hexadecimal digits.  Python also accepts
    a sign, surrounding blanks, underscores and a [0x] prefix; the program
    only passes two-character slices of colour strings. *)
Definition int16 (s : string) : outcome Z :=
  match s with
  | EmptyString => Raised (Exception "invalid literal for int() with base 16")
  | _ =>
      match hex_digits_value 0 s with
      | Some n => Returned n
      | None => Raised (Exception "invalid literal for int() with base 16")
      end
  end.

End Py.

(** [to_rgba] rejects a channel outside [0, 1]; a [nan] passes both
    comparisons and fails later, in [round]. *)
Definition out_of_range (v : float) : bool :=
  (v <? 0)%float || (1 <? v)%float.

Definition channel_hex (v : float) : outcome string :=
  outcome_bind (Py.round (v * 255)%float) (fun n => Returned (Py.format_02x n)).

(** [rgb2hex(c)] for a three-channel colour: [to_hex(c)] with
    [keep_alpha=False], that is
    ["#" + "".join(format(round(val * 255), "02x") for val in c)]
    after the range check of [to_rgba]. *)
Definition rgb2hex (c : rgb) : outcome string :=
  let '(r, g, b) := c in
  if existsb out_of_range [r; g; b]
  then Raised (Exception "RGBA values should be within 0-1 range")
  else
    outcome_bind (channel_hex r) (fun rr =>
    outcome_bind (channel_hex g) (fun gg =>
    outcome_bind (channel_hex b) (fun bb =>
    Returned ("#" +:+ rr +:+ gg +:+ bb)))).

(** ** Python dictionaries

    A [dict] keeps its keys in insertion order, and assigning to a key that
    is present keeps the key's place.  [results] of [analyze_directory] is
    iterated by [main], so its order is part of the behaviour. *)
Module Dict.

Definition t (V : Type) : Type := list (string * V).

(** [d[k] = v] *)
Fixpoint set {V} (k : string) (v : V) (d : t V) : t V :=
  match d with
  | [] => [(k, v)]
  | (k', v') :: d' =>
      if String.eqb k k' then (k, v) :: d' else (k', v') :: set k v d'
  end.

(** [d.get(k)] *)
Fixpoint get {V} (k : string) (d : t V) : option V :=
  match d with
  | [] => None
  | (k', v') :: d' => if String.eqb k k' then Some v' else get k d'
  end.

(** [list(d)]: the keys, in order. *)
Definition keys {V} (d : t V) : list string := map fst d.

End Dict.

(** ** The external world

    PIL, numpy, scikit-learn, the matplotlib window and the file system are
    not part of the script.  Each external call reads and may change an
    abstract [world]; between two calls of the script the world may change
    in any way (files appear, change or vanish).  [KMeans] is not seeded, so
    its answer depends on the world too. *)
Record Externals : Type := {
  world : Type;
  image : Type;      (** a PIL image handle *)
  ndarray : Type;    (** a numpy pixel array of shape (n, 3) *)
  (** [os.path.exists(path)] *)
  os_path_exists : string -> world -> bool;
  (** what [os.walk(directory)] yields: (root, dirs, files), top down *)
  os_walk : string -> world -> list (string * list string * list string);
  (** [Image.open(path)] *)
  Image_open : string -> world -> outcome image * world;
  (** [np.array(img.convert("RGB"), dtype=np.float32).reshape(-1, 3)] *)
  to_pixel_array : image -> world -> outcome ndarray * world;
  (** [pixels / 255.0] *)
  divide_255 : ndarray -> ndarray;
  (** [KMeans(n_clusters=k).fit(pixels).cluster_centers_] *)
  KMeans_centers : Z -> ndarray -> world -> outcome (list rgb) * world;
  (** the matplotlib calls of [display_color_palette] *)
  show_palette : list string -> world -> outcome unit * world
}.

(** scikit-learn's contract for [cluster_centers_]: an array with
    [n_clusters] rows, and [n_clusters >= 1] or the constructor raises. *)
Definition KMeans_contract (E : Externals) : Prop :=
  forall k px w cs w',
    KMeans_centers E k px w = (Returned cs, w') ->
    1 <= k /\ length cs = Z.to_nat k.

(** ** Program state: the cache, the log, the console, the world *)

Inductive level : Type := DEBUG | INFO | ERROR.

(** One constructor per [logging] call site, with the values it formats. *)
Inductive message : Type :=
  | ReturningCached (path : string)
  | ImageLoaded (path : string)
  | PixelArrayShape
  | DominantColorsFound (centers : list rgb)
  | DominantColorsHex (colors : list string)
  | ErrorOf (e : exn)
  | ErrorWhileExtracting (text : string)
  | DisplayingPalette (colors : list string)
  | AnalyzingImage (path : string).

(** [log] holds the records handed to [logging], oldest first, whatever
    level the handler is configured to print; [stdout] holds the arguments
    of the [print] calls. *)
Record state (E : Externals) : Type := State {
  color_cache : gmap string (list string);
  log : list (level * message);
  stdout : list string;
  env : world E
}.
Arguments State {E} _ _ _ _.
Arguments color_cache {E} _.
Arguments log {E} _.
Arguments stdout {E} _.
Arguments env {E} _.

Definition set_env {E} (w : world E) (s : state E) : state E :=
  State (color_cache s) (log s) (stdout s) w.

(** A fresh process: [color_cache = {}], nothing logged or printed. *)
Definition initial_state {E} (w : world E) : state E := State ∅ [] [] w.

Definition is_error (entry : level * message) : bool :=
  match fst entry with ERROR => true | _ => false end.

Definition error_entries (l : list (level * message)) : list (level * message) :=
  List.filter is_error l.

(** ** The monad of the script: state and exceptions *)

Module Mon.

Definition M (E : Externals) (A : Type) : Type := state E -> outcome A * state E.

Definition ret {E A} (a : A) : M E A := fun s => (Returned a, s).

Definition bind {E A B} (m : M E A) (f : A -> M E B) : M E B :=
  fun s =>
    match m s with
    | (Returned a, s') => f a s'
    | (Raised e, s') => (Raised e, s')
    end.

Definition raise {E A} (e : exn) : M E A := fun s => (Raised e, s).

(** [try: body except ...: handler] *)
Definition try_except {E A} (body : M E A) (handler : exn -> M E A) : M E A :=
  fun s =>
    match body s with
    | (Returned a, s') => (Returned a, s')
    | (Raised e, s') => handler e s'
    end.

Definition of_outcome {E A} (o : outcome A) : M E A := fun s => (o, s).

(** An external call: it runs in the current world and leaves a new one. *)
Definition external {E A} (op : world E -> outcome A * world E) : M E A :=
  fun s => let '(r, w) := op (env s) in (r, set_env w s).

Definition ask {E A} (q : world E -> A) : M E A := fun s => (Returned (q (env s)), s).

Definition logging {E} (lv : level) (msg : message) : M E unit :=
  fun s => (Returned tt, State (color_cache s) (log s ++ [(lv, msg)]) (stdout s) (env s)).

Definition print {E} (text : string) : M E unit :=
  fun s => (Returned tt, State (color_cache s) (log s) (stdout s ++ [text]) (env s)).

Definition cache_lookup {E} (path : string) : M E (option (list string)) :=
  fun s => (Returned (color_cache s !! path), s).

Definition cache_store {E} (path : string) (colors : list string) : M E unit :=
  fun s => (Returned tt, State (<[path := colors]> (color_cache s)) (log s) (stdout s) (env s)).

(** [for x in l: acc = body(x, acc)] *)
Fixpoint for_each {E A B} (body : A -> B -> M E B) (l : list A) (acc : B) : M E B :=
  match l with
  | [] => ret acc
  | x :: l' => bind (body x acc) (for_each body l')
  end.

End Mon.
Import Mon.

Declare Scope script_scope.
Delimit Scope script_scope with script.
Notation "x <- c1 ;; c2" := (bind c1 (fun x => c2))
  (at level 100, c1 at next level, c2 at level 200, right associativity) : script_scope.
Notation "c1 ;; c2" := (bind c1 (fun _ => c2))
  (at level 100, c2 at level 200, right associativity) : script_scope.
Open Scope script_scope.

(** ** The script *)

Definition SUPPORTED_FORMATS : list string :=
  [".png"; ".jpg"; ".jpeg"; ".bmp"; ".tiff"]%string.

(** [file.lower().endswith(SUPPORTED_FORMATS)] *)
Definition supported (file : string) : bool :=
  Str.endswith_any (Str.lower file) SUPPORTED_FORMATS.

(** [format_colors(colors)] *)
Definition format_line (i : nat) (color : string) : string :=
  "Color " +:+ Str.of_nat (i + 1) +:+ ": " +:+ color.

Definition format_colors (colors : list string) : string :=
  let formatted := Str.join Str.newline (imap format_line colors) in
  "Dominant colors extracted:" +:+ Str.newline +:+ formatted.

(** [os.path.join(a, b)] on a POSIX system. *)
Definition os_path_join (a b : string) : string :=
  if Str.startswith b "/" then b
  else if (String.length a =? 0)%nat || Str.endswith a "/" then a +:+ b
  else a +:+ "/" +:+ b.

(** An int as a numpy float64 (exact below 2^53). *)
Definition float_of_Z (z : Z) : float :=
  if z <? 0 then (- of_uint63 (Uint63.of_Z (- z)))%float
  else of_uint63 (Uint63.of_Z z).

Definition rgb_zero : rgb := (0, 0, 0)%float.

Definition rgb_add (a b : rgb) : rgb :=
  let '(a1, a2, a3) := a in
  let '(b1, b2, b3) := b in
  (a1 + b1, a2 + b2, a3 + b3)%float.

Definition rgb_div (a : rgb) (d : float) : rgb :=
  let '(a1, a2, a3) := a in
  (a1 / d, a2 / d, a3 / d)%float.

(** [aggregate_colors[i]] of the [defaultdict(lambda: np.zeros(3))]. *)
Definition sums_at (sums : gmap nat rgb) (i : nat) : rgb :=
  default rgb_zero (sums !! i).

(** [np.array([int(color[1:3], 16), int(color[3:5], 16), int(color[5:7], 16)])] *)
Definition color_channels (color : string) : outcome (Z * Z * Z) :=
  outcome_bind (Py.int16 (Str.slice 1 3 color)) (fun r =>
  outcome_bind (Py.int16 (Str.slice 3 5 color)) (fun g =>
  outcome_bind (Py.int16 (Str.slice 5 7 color)) (fun b =>
  Returned (r, g, b)))).

Definition rgb_of_channels (c : Z * Z * Z) : rgb :=
  let '(r, g, b) := c in (float_of_Z r, float_of_Z g, float_of_Z b).

(** The locals of [analyze_directory]. *)
Record analysis : Type := Analysis {
  results : Dict.t (list string);
  aggregate_colors : gmap nat rgb;
  image_count : Z
}.

Definition empty_analysis : analysis := Analysis [] ∅ 0.

(** What [analyze_directory] returns: the per-file dictionary, or the
    aggregated palette. *)
Inductive report : Type :=
  | PerFile (results : Dict.t (list string))
  | Aggregated (palette : list string).

Section Script.
Context (E : Externals).

(** [display_color_palette(dominant_colors)] *)
Definition display_color_palette (dominant_colors : list string) : M E unit :=
  logging DEBUG (DisplayingPalette dominant_colors) ;;
  external (show_palette E dominant_colors).

(** The body of the [try] block of [extract_colors]. *)
Definition extract_colors_body (image_path : string) (num_colors : Z)
    (display_palette : bool) : M E (list string) :=
  found <- ask (os_path_exists E image_path) ;;
  if negb found then
    raise (FileNotFoundError ("Image file '" +:+ image_path +:+ "' not found."))
  else
    cached <- cache_lookup image_path ;;
    match cached with
    | Some colors =>
        logging INFO (ReturningCached image_path) ;;
        ret colors
    | None =>
        img <- external (Image_open E image_path) ;;
        logging DEBUG (ImageLoaded image_path) ;;
        pixels <- external (to_pixel_array E img) ;;
        logging DEBUG PixelArrayShape ;;
        let pixels_normalized := divide_255 E pixels in
        dominant_colors <- external (KMeans_centers E num_colors pixels_normalized) ;;
        logging DEBUG (DominantColorsFound dominant_colors) ;;
        dominant_colors_hex <- of_outcome (outcome_map rgb2hex dominant_colors) ;;
        logging DEBUG (DominantColorsHex dominant_colors_hex) ;;
        cache_store image_path dominant_colors_hex ;;
        (if display_palette then display_color_palette dominant_colors_hex else ret tt) ;;
        ret dominant_colors_hex
    end.

(** The two [except] clauses of [extract_colors]. *)
Definition extract_colors_handler (e : exn) : M E (list string) :=
  match e with
  | FileNotFoundError _ =>
      logging ERROR (ErrorOf e) ;; ret []
  | Exception msg =>
      logging ERROR (ErrorWhileExtracting msg) ;; ret []
  end.

Definition extract_colors (image_path : string) (num_colors : Z)
    (display_palette : bool) : M E (list string) :=
  try_except (extract_colors_body image_path num_colors display_palette)
             extract_colors_handler.

(** The accumulation loop of [analyze_directory]:
    [for i, color in enumerate(colors): aggregate_colors[i] += np.array([...])],
    with [i] starting at [start]. *)
Fixpoint accumulate (start : nat) (colors : list string) (sums : gmap nat rgb)
    : outcome (gmap nat rgb) :=
  match colors with
  | [] => Returned sums
  | color :: rest =>
      outcome_bind (color_channels color) (fun c =>
      accumulate (S start) rest
        (<[start := rgb_add (sums_at sums start) (rgb_of_channels c)]> sums))
  end.

(** The body of the inner [for] loop of [analyze_directory]. *)
Definition analyze_file (num_colors : Z) (display_palette aggregate : bool)
    (root file : string) (acc : analysis) : M E analysis :=
  if supported file then
    let image_path := os_path_join root file in
    logging INFO (AnalyzingImage image_path) ;;
    colors <- extract_colors image_path num_colors display_palette ;;
    match colors with
    | [] => ret acc
    | _ :: _ =>
        let results' := Dict.set file colors (results acc) in
        if aggregate then
          sums' <- of_outcome (accumulate 0 colors (aggregate_colors acc)) ;;
          ret (Analysis results' sums' (image_count acc + 1))
        else
          ret (Analysis results' (aggregate_colors acc) (image_count acc))
    end
  else ret acc.

(** The two nested [for] loops over what [os.walk] yielded. *)
Definition analyze_walk (num_colors : Z) (display_palette aggregate : bool)
    (walk : list (string * list string * list string)) (acc : analysis) : M E analysis :=
  for_each
    (fun '(root, _, files) =>
       for_each (analyze_file num_colors display_palette aggregate root) files)
    walk acc.

(** The averaging after the loops:
    [rgb2hex(aggregate_colors[i] / image_count / 255.0) for i in range(num_colors)] *)
Definition average_color (sums : gmap nat rgb) (image_count : Z) (i : nat) : rgb :=
  rgb_div (rgb_div (sums_at sums i) (float_of_Z image_count)) 255%float.

Definition aggregated_result (sums : gmap nat rgb) (image_count num_colors : Z)
    : outcome (list string) :=
  outcome_map (fun i => rgb2hex (average_color sums image_count i))
              (seq 0 (Z.to_nat num_colors)).

Definition analyze_directory (directory : string) (num_colors : Z)
    (display_palette aggregate : bool) : M E report :=
  walk <- ask (os_walk E directory) ;;
  acc <- analyze_walk num_colors display_palette aggregate walk empty_analysis ;;
  if aggregate && (0 <? image_count acc) then
    palette <- of_outcome (aggregated_result (aggregate_colors acc) (image_count acc) num_colors) ;;
    ret (Aggregated palette)
  else ret (PerFile (results acc)).

(** [logging.basicConfig(level=..., format=...)] chooses what the handler
    prints; the records in [log] do not depend on it. *)
Definition logging_basicConfig (log_level : level) : M E unit := ret tt.

(** [f"Image: {name}\n{format_colors(colors)}"] *)
Definition image_report (name : string) (colors : list string) : string :=
  "Image: " +:+ name +:+ Str.newline +:+ format_colors colors.

(** What [enumerate] iterates when [format_colors] is given the value
    returned by [analyze_directory]: a list's items, a dict's keys. *)
Definition report_items (r : report) : list string :=
  match r with
  | Aggregated palette => palette
  | PerFile d => Dict.keys d
  end.

(** [main]; [None] and the empty list or string are the falsy arguments. *)
Definition main (image_paths : option (list string)) (directory : option string)
    (num_colors : Z) (display_palette aggregate : bool) (log_level : level) : M E unit :=
  logging_basicConfig log_level ;;
  match image_paths with
  | Some (p :: ps) =>
      for_each
        (fun image_path (_ : unit) =>
           colors <- extract_colors image_path num_colors display_palette ;;
           match colors with
           | [] => ret tt
           | _ :: _ => print (image_report image_path colors)
           end)
        (p :: ps) tt
  | _ =>
      match directory with
      | Some (String c d) =>
          result <- analyze_directory (String c d) num_colors display_palette aggregate ;;
          if aggregate then
            print ("Aggregated dominant colors for all images:" +:+ Str.newline
                   +:+ format_colors (report_items result))
          else
            match result with
            | PerFile d =>
                for_each (fun '(image, colors) (_ : unit) => print (image_report image colors))
                         d tt
            | Aggregated _ =>
                raise (Exception "'list' object has no attribute 'items'")
            end
      | _ => ret tt
      end
  end.

End Script.

(** ** Vocabulary of the properties *)

(** The files of a walk that [analyze_directory] hands to [extract_colors],
    in visiting order, each with the path it is opened under. *)
Definition walk_jobs (walk : list (string * list string * list string))
    : list (string * string) :=
  flat_map
    (fun '(root, _, files) =>
       map (fun file => (file, os_path_join root file)) (List.filter supported files))
    walk.

(** A walk without the files that have no supported extension. *)
Definition only_supported (walk : list (string * list string * list string))
    : list (string * list string * list string) :=
  map (fun '(root, dirs, files) => (root, dirs, List.filter supported files)) walk.

(** What the inner loop records for a run of extractions: an empty colour
    list is skipped, another one is stored under the file name. *)
Definition record_results (trace : list (string * list string))
    (d : Dict.t (list string)) : Dict.t (list string) :=
  fold_left
    (fun d '(file, colors) =>
       match colors with [] => d | _ :: _ => Dict.set file colors d end)
    trace d.

(** The non-empty colour lists of a run of extractions, in order. *)
Definition palettes_of (trace : list (string * list string)) : list (list string) :=
  List.filter (fun colors => match colors with [] => false | _ => true end)
              (map snd trace).

(** The record that the [except] clauses of [extract_colors] log for [e]. *)
Definition handler_entry (e : exn) : level * message :=
  match e with
  | FileNotFoundError _ => (ERROR, ErrorOf e)
  | Exception msg => (ERROR, ErrorWhileExtracting msg)
  end.

(** The records a fresh extraction logs before it stores its result. *)
Definition extraction_entries (path : string) (centers : list rgb) (colors : list string)
    : list (level * message) :=
  [(DEBUG, ImageLoaded path); (DEBUG, PixelArrayShape);
   (DEBUG, DominantColorsFound centers); (DEBUG, DominantColorsHex colors)].

Definition is_hex_color (s : string) : Prop := hex_color s = true.

(** The channels of a colour string as float64, [0] where it does not parse. *)
Definition color_rgb (color : string) : rgb :=
  match color_channels color with
  | Returned c => rgb_of_channels c
  | Raised _ => rgb_zero
  end.

(** The float64 sum, in order, of the [i]-th colours of the palettes that
    have one. *)
Definition channel_sum (i : nat) (palettes : list (list string)) : rgb :=
  fold_left (fun acc color => rgb_add acc (color_rgb color))
            (omap (fun p : list string => p !! i) palettes) rgb_zero.

(** [rgb2hex(sum_i / image_count / 255.0)] for [i] in [range(num_colors)],
    with [image_count] the number of palettes. *)
Definition average_palette (palettes : list (list string)) (num_colors : Z)
    : outcome (list string) :=
  outcome_map
    (fun i => rgb2hex (rgb_div (rgb_div (channel_sum i palettes)
                                        (float_of_Z (Z.of_nat (length palettes))))
                               255%float))
    (seq 0 (Z.to_nat num_colors)).

(** Two lower-case hexadecimal digits. *)
Definition two_hex_digits (s : string) : bool :=
  match s with
  | String c1 (String c2 EmptyString) => is_lower_hex_digit c1 && is_lower_hex_digit c2
  | _ => false
  end.

(** The byte [i] is written as two digits that read back as [i]. *)
Definition byte_ok (i : nat) : bool :=
  two_hex_digits (Py.format_02x (Z.of_nat i))
  && match Py.int16 (Py.format_02x (Z.of_nat i)) with
     | Returned n => n =? Z.of_nat i
     | Raised _ => false
     end.

(** What [k] right shifts of a rounding have made of [mx]: the quotient,
    and whether a non-zero bit was shifted out. *)
Definition shifted (mx : Z) (k : Z) (mrs : shr_record) : Prop :=
  shr_m mrs = mx / 2 ^ k /\
  (orb (shr_r mrs) (shr_s mrs) = false <-> mx mod 2 ^ k = 0).




(** [sums'] is [sums] after the palettes were accumulated, in order. *)
Definition sums_after (palettes : list (list string)) (sums sums' : gmap nat rgb) : Prop :=
  forall i,
    sums_at sums' i
    = fold_left (fun acc color => rgb_add acc (color_rgb color))
                (omap (fun p : list string => p !! i) palettes) (sums_at sums i).

(** [acc'] is [acc] after the inner loop body ran on the extractions of
    [trace]. *)
Definition analysis_after (agg : bool) (trace : list (string * list string))
    (acc acc' : analysis) : Prop :=
  results acc' = record_results trace (results acc)
  /\ if agg then
       image_count acc' = image_count acc + Z.of_nat (length (palettes_of trace))
       /\ sums_after (palettes_of trace) (aggregate_colors acc) (aggregate_colors acc')
     else
       image_count acc' = image_count acc
       /\ aggregate_colors acc' = aggregate_colors acc.

Section Vocabulary.
Context (E : Externals).

(** The run of [extract_colors] calls that [analyze_directory] makes for a
    list of jobs: the state is threaded, each call's file name and return
    value are collected. *)
Fixpoint extract_each (num_colors : Z) (display_palette : bool)
    (jobs : list (string * string)) (s : state E)
    : list (string * list string) * state E :=
  match jobs with
  | [] => ([], s)
  | (file, path) :: rest =>
      let '(r, s1) :=
        (logging INFO (AnalyzingImage path) ;;
         extract_colors E path num_colors display_palette) s in
      let colors := match r with Returned l => l | Raised _ => [] end in
      let '(trace, s2) := extract_each num_colors display_palette rest s1 in
      ((file, colors) :: trace, s2)
  end.

(** The ways a call [extract_colors(path, k, show)] made in state [s] can
    end: the colours returned and the state left.  [added] are the
    records logged below error level. *)
Inductive extract_spec (s : state E) (path : string) (k : Z) (show : bool)
    : list string -> state E -> Prop :=
  | spec_missing s' :
      os_path_exists E path (env s) = false ->
      color_cache s' = color_cache s ->
      log s' = log s ++ [(ERROR, ErrorOf (FileNotFoundError
                           ("Image file '" +:+ path +:+ "' not found.")))] ->
      stdout s' = stdout s -> env s' = env s ->
      extract_spec s path k show [] s'
  | spec_hit colors s' :
      os_path_exists E path (env s) = true ->
      color_cache s !! path = Some colors ->
      color_cache s' = color_cache s ->
      log s' = log s ++ [(INFO, ReturningCached path)] ->
      stdout s' = stdout s -> env s' = env s ->
      extract_spec s path k show colors s'
  | spec_failed added msg s' :
      os_path_exists E path (env s) = true ->
      color_cache s !! path = None ->
      error_entries added = [] ->
      color_cache s' = color_cache s ->
      log s' = log s ++ added ++ [(ERROR, msg)] ->
      stdout s' = stdout s ->
      extract_spec s path k show [] s'
  | spec_fresh px w0 w1 centers colors added s' :
      os_path_exists E path (env s) = true ->
      color_cache s !! path = None ->
      KMeans_centers E k px w0 = (Returned centers, w1) ->
      outcome_map rgb2hex centers = Returned colors ->
      error_entries added = [] ->
      color_cache s' = <[path := colors]> (color_cache s) ->
      log s' = log s ++ added ->
      stdout s' = stdout s ->
      extract_spec s path k show colors s'
  | spec_display_failed px w0 w1 centers colors added msg e w2 s' :
      os_path_exists E path (env s) = true ->
      color_cache s !! path = None ->
      show = true ->
      KMeans_centers E k px w0 = (Returned centers, w1) ->
      outcome_map rgb2hex centers = Returned colors ->
      show_palette E colors w1 = (Raised e, w2) ->
      error_entries added = [] ->
      color_cache s' = <[path := colors]> (color_cache s) ->
      log s' = log s ++ added ++ [(ERROR, msg)] ->
      stdout s' = stdout s -> env s' = w2 ->
      extract_spec s path k show [] s'.

(** The call that the loop makes for one job: the record of the walk, then
    the extraction. *)
Definition logged_extract (k : Z) (show : bool) (path : string) (s : state E)
    : outcome (list string) * state E :=
  extract_colors E path k show
    (State (color_cache s) (log s ++ [(INFO, AnalyzingImage path)]) (stdout s) (env s)).

(** Every cached colour has the form [#rrggbb]. *)
Definition cache_wf (s : state E) : Prop :=
  forall path colors, color_cache s !! path = Some colors -> Forall is_hex_color colors.

(** The cache only grows, and only by colour strings: entries are never
    changed or removed, and well-formedness is kept. *)
Definition cache_grows (s s' : state E) : Prop :=
  (forall p c, color_cache s !! p = Some c -> color_cache s' !! p = Some c)
  /\ (cache_wf s -> cache_wf s').

(** [evolves s s']: the process can get from [s] to [s'] by calls of the
    script's functions, the world changing freely in between. *)
Inductive evolves : state E -> state E -> Prop :=
  | evolves_refl s : evolves s s
  | evolves_world s s' w :
      evolves s s' -> evolves s (set_env w s')
  | evolves_extract s s' path k show :
      evolves s s' -> evolves s (snd (extract_colors E path k show s'))
  | evolves_analyze s s' dir k show agg :
      evolves s s' -> evolves s (snd (analyze_directory E dir k show agg s'))
  | evolves_main s s' paths dir k show agg lv :
      evolves s s' -> evolves s (snd (main E paths dir k show agg lv s')).

(** The states of a process that started with an empty cache. *)
Definition reachable (s : state E) : Prop :=
  exists w, evolves (initial_state w) s.

End Vocabulary.
Arguments evolves {E} _ _.
Arguments reachable {E} _.
Arguments cache_wf {E} _.
Arguments cache_grows {E} _ _.

(** ** A small concrete world

    Disks whose image files are solid-colour images.  Clustering a solid
    image gives [k] copies of its colour.  The renderer behaves as
    matplotlib does: [plt.subplots(1, n)] returns an array of axes only
    for [n > 1], so [ax[i]] fails for a one-colour palette, and
    [plt.subplots(1, 0)] is refused. *)
Module Demo.

Inductive file : Type :=
  | Solid (c : rgb)     (** an image whose pixels all have colour [c] *)
  | Garbage.            (** bytes that are not an image *)

Record disk : Type := Disk {
  files : gmap string file;
  tree : list (string * list string * list string)
}.

Definition externals : Externals := {|
  world := disk;
  image := rgb;
  ndarray := rgb;
  os_path_exists p w := bool_decide (is_Some (files w !! p));
  os_walk _ w := tree w;
  Image_open p w :=
    match files w !! p with
    | Some (Solid c) => (Returned c, w)
    | Some Garbage => (Raised (Exception "cannot identify image file"), w)
    | None => (Raised (FileNotFoundError "No such file or directory"), w)
    end;
  to_pixel_array img w := (Returned img, w);
  divide_255 px := px;
  KMeans_centers k px w :=
    if k <? 1 then (Raised (Exception "n_clusters must be an int in the range [1, inf)"), w)
    else (Returned (replicate (Z.to_nat k) px), w);
  show_palette colors w :=
    match colors with
    | [] => (Raised (Exception "Number of columns must be a positive integer"), w)
    | [_] => (Raised (Exception "'Axes' object is not subscriptable"), w)
    | _ => (Returned tt, w)
    end
|}.

(** A fresh process on disk [w]. *)
Definition start (w : disk) : state externals := @initial_state externals w.

(** The process of [s], moved to disk [w]. *)
Definition on (w : disk) (s : state externals) : state externals :=
  @set_env externals w s.

Definition mk (cache : gmap string (list string)) (l : list (level * message))
    (out : list string) (w : disk) : state externals :=
  @State externals cache l out w.

Definition red : rgb := (1, 0, 0)%float.
Definition blue : rgb := (0, 0, 1)%float.

Definition no_files : disk := Disk ∅ [].

(** One red image. *)
Definition one_image : disk :=
  Disk (<["d/a.png" := Solid red]> ∅) [("d", [], ["a.png"])]%string.

(** The disk of [one_image] after the image was repainted blue. *)
Definition repainted : disk :=
  Disk (<["d/a.png" := Solid blue]> ∅) [("d", [], ["a.png"])]%string.

(** A file with an image's name that is not an image. *)
Definition broken : disk :=
  Disk (<["d/a.png" := Garbage]> ∅) [("d", [], ["a.png"])]%string.

(** Two solid images, one red and one blue, in one directory, beside a
    text file. *)
Definition two_images : disk :=
  Disk (<["d/a.png" := Solid red]> (<["d/b.png" := Solid blue]> ∅))
       [("d", [], ["a.png"; "notes.txt"; "b.png"])]%string.

(** Two images with one name in two subdirectories. *)
Definition same_name : disk :=
  Disk (<["d/x/a.png" := Solid red]> (<["d/y/a.png" := Solid blue]> ∅))
       [("d", ["x"; "y"], []); ("d/x", [], ["a.png"]); ("d/y", [], ["a.png"])]%string.

End Demo.
Example rgb2hex_red : rgb2hex (1, 0, 0)%float = Returned "#ff0000"%string.
Proof. vm_compute. reflexivity. Qed.

Example rgb2hex_half : rgb2hex (0.5, 0, 0.5)%float = Returned "#800080"%string.
Proof. vm_compute. reflexivity. Qed.

Example rgb2hex_out_of_range :
  rgb2hex (1.5, 0, 0)%float = Raised (Exception "RGBA values should be within 0-1 range").
Proof. vm_compute. reflexivity. Qed.

Example rgb2hex_nan :
  rgb2hex (nan, 0, 0)%float = Raised (Exception "cannot convert float NaN to integer").
Proof. vm_compute. reflexivity. Qed.

Example demo_extract :
  fst (extract_colors Demo.externals "d/a.png" 2 false (Demo.start Demo.two_images))
  = Returned ["#ff0000"; "#ff0000"]%string.
Proof. vm_compute. reflexivity. Qed.

Example demo_aggregate :
  fst (analyze_directory Demo.externals "d" 1 false true (Demo.start Demo.two_images))
  = Returned (Aggregated ["#800080"]%string).
Proof. vm_compute. reflexivity. Qed.

(** * Properties *)

(** ** Rounding in binary64

    Facts about the Standard Library's specification of binary64
    ([SpecFloat]), which the primitive floats obey: what the right shifts of
    a rounding keep, and that a product with [255] of a number in [0, 1]
    stays within [0, 255]. *)
Module Binary64.

Lemma digits2_pos_bounds (m : positive) :
  2 ^ (Z.pos (digits2_pos m) - 1) <= Z.pos m < 2 ^ Z.pos (digits2_pos m).
Proof.
  induction m as [m IH | m IH |]; cbn [digits2_pos].
  - rewrite Pos2Z.inj_succ, Z.pow_succ_r by lia.
    replace (Z.succ (Z.pos (digits2_pos m)) - 1) with (Z.succ (Z.pos (digits2_pos m) - 1)) by lia.
    rewrite Z.pow_succ_r by lia. lia.
  - rewrite Pos2Z.inj_succ, Z.pow_succ_r by lia.
    replace (Z.succ (Z.pos (digits2_pos m)) - 1) with (Z.succ (Z.pos (digits2_pos m) - 1)) by lia.
    rewrite Z.pow_succ_r by lia. lia.
  - cbn. lia.
Qed.

Lemma shr_1_shifted mx k mrs :
  0 <= mx -> 0 <= k -> shifted mx k mrs -> shifted mx (k + 1) (shr_1 mrs).
Proof.
  intros Hmx Hk [Hm Hrs].
  assert (Hpow : 0 < 2 ^ k) by (apply Z.pow_pos_nonneg; lia).
  assert (Hq : 0 <= mx / 2 ^ k) by (apply Z.div_pos; lia).
  assert (Hdiv : mx / 2 ^ (k + 1) = mx / 2 ^ k / 2).
  { rewrite Z.pow_add_r, Z.pow_1_r by lia. rewrite Z.div_div by lia. reflexivity. }
  assert (Hmod : mx mod 2 ^ (k + 1) = 0 <-> (mx mod 2 ^ k = 0 /\ (mx / 2 ^ k) mod 2 = 0)).
  { rewrite Z.pow_add_r, Z.pow_1_r by lia.
    rewrite Z.rem_mul_r by lia.
    pose proof (Z.mod_pos_bound mx (2 ^ k) Hpow).
    pose proof (Z.mod_pos_bound (mx / 2 ^ k) 2 ltac:(lia)).
    nia. }
  destruct mrs as [m r s]. cbn [shr_m shr_r shr_s] in *.
  unfold shifted. rewrite Hdiv, Hmod, <- Hm, <- Hrs.
  destruct m as [| [p | p |] | p]; cbn [shr_1 shr_m shr_r shr_s]; try lia.
  - split; [reflexivity |]. rewrite Z.mod_0_l by lia. cbn. tauto.
  - split; [rewrite Pos2Z.inj_xI; apply Z.div_unique with (r := 1); lia |].
    rewrite Pos2Z.inj_xI.
    replace ((2 * Z.pos p + 1) mod 2) with 1
      by (apply Z.mod_unique with (q := Z.pos p); lia).
    cbn. split; [discriminate | lia].
  - split; [rewrite Pos2Z.inj_xO; apply Z.div_unique with (r := 0); lia |].
    rewrite Pos2Z.inj_xO.
    replace ((2 * Z.pos p) mod 2) with 0
      by (apply Z.mod_unique with (q := Z.pos p); lia).
    cbn. tauto.
  - split; [reflexivity |]. change (1 mod 2) with 1. cbn.
    split; [discriminate | lia].
Qed.

Lemma iter_shr_1_shifted mx (p : positive) : forall k mrs,
  0 <= mx -> 0 <= k -> shifted mx k mrs ->
  shifted mx (k + Z.pos p) (SpecFloat.iter_pos shr_1 p mrs).
Proof.
  induction p as [p IH | p IH |]; intros k mrs Hmx Hk H; cbn [SpecFloat.iter_pos].
  - replace (k + Z.pos p~1) with (k + 1 + Z.pos p + Z.pos p) by lia.
    apply IH; [lia | lia |]. apply IH; [lia | lia |].
    apply shr_1_shifted; assumption.
  - replace (k + Z.pos p~0) with (k + Z.pos p + Z.pos p) by lia.
    apply IH; [lia | lia |]. apply IH; assumption.
  - apply shr_1_shifted; assumption.
Qed.

Lemma shifted_0 mx : shifted mx 0 (Build_shr_record mx false false).
Proof.
  unfold shifted; cbn. rewrite Z.div_1_r, Z.mod_1_r. tauto.
Qed.

(** [shr] from an exact record: the exponent moves by [Z.max n 0]. *)
Lemma shr_exact_spec mx e n :
  0 <= mx ->
  let '(mrs, e') := shr (Build_shr_record mx false false) e n in
  e' = e + Z.max n 0 /\ shifted mx (Z.max n 0) mrs.
Proof.
  intros Hmx. destruct n as [| p | p]; cbn [shr].
  - split; [cbn; lia | apply shifted_0].
  - split; [f_equal; lia |].
    replace (Z.max (Z.pos p) 0) with (0 + Z.pos p) by lia.
    apply iter_shr_1_shifted; [lia | lia | apply shifted_0].
  - split; [cbn; lia | apply shifted_0].
Qed.

Lemma round_nearest_even_shifted mx k mrs :
  0 <= mx -> 0 <= k -> shifted mx k mrs ->
  let m := round_nearest_even (shr_m mrs) (loc_of_shr_record mrs) in
  mx / 2 ^ k <= m <= mx / 2 ^ k + 1 /\ (mx mod 2 ^ k = 0 -> m = mx / 2 ^ k).
Proof.
  intros Hmx Hk [Hm Hrs]. destruct mrs as [m r s]. cbn [shr_m shr_r shr_s] in *.
  subst m. destruct r, s; cbn [loc_of_shr_record round_nearest_even orb] in *.
  - split; [lia |]. intros H0. apply Hrs in H0. discriminate.
  - split; [destruct (Z.even _); lia |]. intros H0. apply Hrs in H0. discriminate.
  - split; [lia |]. reflexivity.
  - split; [lia |]. reflexivity.
Qed.


Lemma fexp_le_0 d e B :
  0 < B < 2 ^ 53 -> e <= 0 -> 0 <= d ->
  2 ^ (d - 1) <= B * 2 ^ (- e) \/ d = 0 ->
  fexp prec emax (d + e) <= 0.
Proof.
  intros HB He Hd H. unfold fexp, SpecFloat.emin, prec, emax.
  apply Z.max_lub; [| lia].
  destruct H as [H | ->]; [| lia].
  destruct (Z_le_gt_dec (d + e - 53) 0) as [Hle | Hgt]; [exact Hle | exfalso].
  assert (Hp : 0 < 2 ^ (- e)) by (apply Z.pow_pos_nonneg; lia).
  assert (2 ^ (53 - e) <= 2 ^ (d - 1)) by (apply Z.pow_le_mono_r; lia).
  replace (53 - e) with (53 + - e) in * by lia.
  rewrite Z.pow_add_r in * by lia. nia.
Qed.

Lemma div_pow2_le a K n :
  0 <= n -> a <= K * 2 ^ n -> a / 2 ^ n <= K.
Proof.
  intros Hn H. assert (0 < 2 ^ n) by (apply Z.pow_pos_nonneg; lia).
  apply Z.div_le_upper_bound; lia.
Qed.

Lemma div_pow2_lt a K n :
  0 <= n -> a <= K * 2 ^ n -> a mod 2 ^ n <> 0 -> a / 2 ^ n < K.
Proof.
  intros Hn H Hne. assert (Hp : 0 < 2 ^ n) by (apply Z.pow_pos_nonneg; lia).
  apply Z.div_lt_upper_bound; [lia |].
  destruct (Z.eq_dec a (2 ^ n * K)) as [-> | ]; [| lia].
  exfalso. apply Hne. rewrite Z.mul_comm. apply Z.mod_mul. lia.
Qed.

(** Rounding a positive value that does not exceed the integer [B] gives
    zero or a finite positive float that does not exceed [B]. *)
Lemma binary_round_aux_le (mx : positive) (ex B : Z) :
  ex <= 0 -> 0 < B < 2 ^ 53 -> Z.pos mx <= B * 2 ^ (- ex) ->
  match binary_round_aux prec emax false (Z.pos mx) ex loc_Exact with
  | S754_zero _ => True
  | S754_finite s m e => s = false /\ e <= 0 /\ Z.pos m <= B * 2 ^ (- e)
  | _ => False
  end.
Proof.
  intros Hex HB Hle.
  unfold binary_round_aux, shr_fexp. cbn [shr_record_of_loc Zdigits2].
  pose proof (digits2_pos_bounds mx) as Hd.
  set (d := Z.pos (digits2_pos mx)) in *.
  assert (Hdpos : 0 < d) by (unfold d; lia).
  assert (He1 : fexp prec emax (d + ex) <= 0)
    by (apply (fexp_le_0 d ex B); lia).
  set (n := fexp prec emax (d + ex) - ex) in *.
  pose proof (shr_exact_spec (Z.pos mx) ex n ltac:(lia)) as Hshr.
  destruct (shr _ ex n) as [mrs e1']. destruct Hshr as [-> Hsh].
  assert (Hn0 : 0 <= Z.max n 0) by lia.
  pose proof (round_nearest_even_shifted (Z.pos mx) (Z.max n 0) mrs ltac:(lia) Hn0 Hsh) as [Hrange Hexact].
  set (m2 := round_nearest_even (shr_m mrs) (loc_of_shr_record mrs)) in *.
  set (e1 := ex + Z.max n 0) in *.
  assert (He1' : e1 <= 0) by (unfold e1, n in *; lia).
  assert (Hq0 : 0 <= Z.pos mx / 2 ^ Z.max n 0)
    by (apply Z.div_pos; [lia | apply Z.pow_pos_nonneg; lia]).
  assert (Hm2 : 0 <= m2 <= B * 2 ^ (- e1)).
  { split; [lia |].
    assert (Hsplit : B * 2 ^ (- ex) = B * 2 ^ (- e1) * 2 ^ Z.max n 0).
    { rewrite <- Z.mul_assoc, <- Z.pow_add_r by lia. do 2 f_equal. lia. }
    rewrite Hsplit in Hle.
    destruct (Z.eq_dec (Z.pos mx mod 2 ^ Z.max n 0) 0) as [H0 | Hne].
    - rewrite (Hexact H0). apply div_pow2_le; assumption.
    - pose proof (div_pow2_lt _ _ _ Hn0 Hle Hne). lia. }
  clearbody m2 e1. clear Hsh Hrange Hexact Hq0 mrs n He1 Hd Hdpos d Hle Hn0.
  assert (Hd2 : 0 <= Zdigits2 m2 /\ (2 ^ (Zdigits2 m2 - 1) <= m2 \/ Zdigits2 m2 = 0)).
  { destruct m2 as [| p | p]; cbn [Zdigits2]; [lia | | lia].
    pose proof (digits2_pos_bounds p). lia. }
  assert (He2 : fexp prec emax (Zdigits2 m2 + e1) <= 0).
  { apply (fexp_le_0 _ e1 B); [lia | lia | lia |]. destruct Hd2 as [_ [H | H]]; [left; lia | right; lia]. }
  set (n2 := fexp prec emax (Zdigits2 m2 + e1) - e1) in *.
  pose proof (shr_exact_spec m2 e1 n2 ltac:(lia)) as Hshr.
  destruct (shr _ e1 n2) as [mrs2 e2]. destruct Hshr as [-> [Hm3 _]].
  rewrite Hm3.
  assert (Hn2 : 0 <= Z.max n2 0) by lia.
  assert (Hle3 : m2 / 2 ^ Z.max n2 0 <= B * 2 ^ (- (e1 + Z.max n2 0))).
  { apply div_pow2_le; [lia |].
    rewrite <- Z.mul_assoc, <- Z.pow_add_r by (unfold n2 in *; lia).
    replace (- (e1 + Z.max n2 0) + Z.max n2 0) with (- e1) by lia. lia. }
  destruct (m2 / 2 ^ Z.max n2 0) as [| m3 | m3] eqn:E3.
  - exact I.
  - assert (Hfin : e1 + Z.max n2 0 <= 0) by (unfold n2 in *; lia).
    replace (e1 + Z.max n2 0 <=? emax - prec) with true
      by (symmetry; apply Z.leb_le; unfold emax, prec; lia).
    auto.
  - assert (0 <= m2 / 2 ^ Z.max n2 0)
      by (apply Z.div_pos; [lia | apply Z.pow_pos_nonneg; lia]).
    lia.
Qed.


Lemma round_half_even_le (m : positive) (e B : Z) :
  e <= 0 -> 0 <= B -> Z.pos m <= B * 2 ^ (- e) ->
  0 <= Py.round_half_even m e <= B.
Proof.
  intros He HB Hle. unfold Py.round_half_even.
  destruct (Z.leb_spec 0 e) as [H0 | Hneg].
  - replace e with 0 in * by lia. cbn in Hle. lia.
  - assert (Hp : 0 < 2 ^ (- e)) by (apply Z.pow_pos_nonneg; lia).
    pose proof (Z.div_mod (Z.pos m) (2 ^ (- e)) ltac:(lia)) as Hdm.
    pose proof (Z.mod_pos_bound (Z.pos m) (2 ^ (- e)) Hp) as Hr.
    assert (Hq : 0 <= Z.pos m / 2 ^ (- e)) by (apply Z.div_pos; lia).
    assert (Hqle : Z.pos m / 2 ^ (- e) <= B) by (apply div_pow2_le; lia).
    destruct (Z.compare_spec (2 * (Z.pos m mod 2 ^ (- e))) (2 ^ (- e))) as [Heq | Hlt | Hgt].
    + destruct (Z.even _); [lia |]. split; [lia |].
      assert (Z.pos m / 2 ^ (- e) < B); [| lia].
      apply div_pow2_lt; [lia | lia | lia].
    + lia.
    + split; [lia |].
      assert (Z.pos m / 2 ^ (- e) < B); [| lia].
      apply div_pow2_lt; [lia | lia | lia].
Qed.

Lemma Prim2SF_0 : Prim2SF 0 = S754_zero false.
Proof. vm_compute. reflexivity. Qed.
Lemma Prim2SF_1 : Prim2SF 1 = S754_finite false 4503599627370496 (-52).
Proof. vm_compute. reflexivity. Qed.
Lemma Prim2SF_255 : Prim2SF 255 = S754_finite false 8972014882652160 (-45).
Proof. vm_compute. reflexivity. Qed.

(** A valid binary64 in [0, 1] is zero or [m * 2^e] with [m <= 2^(-e)]. *)
Lemma unit_interval v :
  out_of_range v = false ->
  match Prim2SF v with
  | S754_zero _ | S754_nan => True
  | S754_infinity _ => False
  | S754_finite s m e => s = false /\ e <= -52 /\ Z.pos m <= 2 ^ (- e)
  end.
Proof.
  unfold out_of_range. rewrite orb_false_iff, !ltb_spec, Prim2SF_0, Prim2SF_1.
  pose proof (Prim2SF_valid v) as Hv.
  destruct (Prim2SF v) as [s | s | | s m e]; [tauto | | tauto |].
  - destruct s; cbv; intuition discriminate.
  - intros [Hneg Hone]. destruct s; [discriminate Hneg |]. clear Hneg.
    split; [reflexivity |].
    unfold SFltb, SFcompare in Hone.
    cbn [valid_binary] in Hv. unfold bounded, canonical_mantissa in Hv.
    apply andb_prop in Hv as [Hc _]. apply Z.eqb_eq in Hc.
    unfold fexp, SpecFloat.emin, prec, emax in Hc.
    pose proof (digits2_pos_bounds m) as Hd.
    assert (Hdig : Z.pos (digits2_pos m) <= 53) by lia.
    assert (Hm53 : Z.pos m < 2 ^ 53).
    { eapply Z.lt_le_trans; [apply Hd |]. apply Z.pow_le_mono_r; lia. }
    destruct (Z.compare_spec (-52) e) as [Heq | Hlt | Hgt]; [| discriminate |].
    + subst e. split; [lia |].
      destruct (Pos.compare_cont Eq 4503599627370496 m) eqn:Hcmp; [| discriminate |].
      * apply Pos.compare_eq in Hcmp. subst m. vm_compute. discriminate.
      * fold (Pos.compare 4503599627370496 m) in Hcmp.
        apply Pos.compare_gt_iff in Hcmp.
        replace (2 ^ (- -52)) with 4503599627370496 by (vm_compute; reflexivity).
        apply Z.lt_le_incl, Pos2Z.pos_lt_pos, Hcmp.
    + split; [lia |].
      assert (2 ^ 53 <= 2 ^ (- e)) by (apply Z.pow_le_mono_r; lia). lia.
Qed.

(** The heart of [rgb2hex]: a channel that passed the range check of
    [to_rgba] rounds to a byte. *)
Lemma round_channel_range v n :
  out_of_range v = false ->
  Py.round (v * 255)%float = Returned n ->
  0 <= n <= 255.
Proof.
  intros Hrange. apply unit_interval in Hrange.
  unfold Py.round. rewrite mul_spec, Prim2SF_255.
  destruct (Prim2SF v) as [s | s | | s m e]; cbn [SF64mul SFmul].
  - intros [= <-]. lia.
  - contradiction.
  - discriminate.
  - destruct Hrange as (-> & He & Hm). cbn [xorb].
    pose proof (binary_round_aux_le (m * 8972014882652160) (e + -45) 255) as Hr.
    assert (Hpre : Z.pos (m * 8972014882652160) <= 255 * 2 ^ (- (e + -45))).
    { replace (- (e + -45)) with (- e + 45) by lia.
      rewrite Z.pow_add_r by lia.
      rewrite Pos2Z.inj_mul.
      replace (Z.pos 8972014882652160) with (255 * 2 ^ 45) by (vm_compute; reflexivity).
      assert (0 < 2 ^ 45) by (apply Z.pow_pos_nonneg; lia).
      rewrite (Z.mul_comm (Z.pos m)), <- !Z.mul_assoc.
      apply Z.mul_le_mono_nonneg_l; [lia |].
      rewrite (Z.mul_comm (2 ^ 45)).
      apply Z.mul_le_mono_nonneg_r; lia. }
    specialize (Hr ltac:(lia) ltac:(split; [lia | vm_compute; reflexivity]) Hpre).
    unfold SF64mul, SFmul.
    destruct (binary_round_aux prec emax false _ _ loc_Exact) as [s' | s' | | s' m' e'];
      try contradiction.
    + intros [= <-]. lia.
    + destruct Hr as (-> & He' & Hm'). intros [= <-]. cbn [cond_Zopp].
      apply round_half_even_le; [lia | lia | exact Hm'].
Qed.

End Binary64.

(** ** Colour strings: writing and reading back *)

Module HexFacts.

Lemma all_bytes_ok : forallb byte_ok (seq 0 256) = true.
Proof. vm_compute. reflexivity. Qed.

Lemma byte_ok_of_range n : 0 <= n <= 255 -> byte_ok (Z.to_nat n) = true.
Proof.
  intros Hn. pose proof all_bytes_ok as H.
  rewrite forallb_forall in H. apply H. apply in_seq. lia.
Qed.

(** A byte is written as two lower-case hexadecimal digits. *)
Lemma format_02x_byte n :
  0 <= n <= 255 -> two_hex_digits (Py.format_02x n) = true.
Proof.
  intros Hn. pose proof (byte_ok_of_range n Hn) as H.
  unfold byte_ok in H. rewrite Z2Nat.id in H by lia.
  apply andb_prop in H. tauto.
Qed.

(** Reading back the two digits of a byte gives the byte. *)
Lemma int16_format_02x n :
  0 <= n <= 255 -> Py.int16 (Py.format_02x n) = Returned n.
Proof.
  intros Hn. pose proof (byte_ok_of_range n Hn) as H.
  unfold byte_ok in H. rewrite Z2Nat.id in H by lia.
  apply andb_prop in H as [_ H].
  destruct (Py.int16 _); [| discriminate]. apply Z.eqb_eq in H. congruence.
Qed.

Lemma two_hex_digits_inv s :
  two_hex_digits s = true ->
  exists c1 c2, s = String c1 (String c2 EmptyString)
                /\ is_lower_hex_digit c1 = true /\ is_lower_hex_digit c2 = true.
Proof.
  destruct s as [| c1 [| c2 [| c3 s]]]; cbn; try discriminate.
  intros H. apply andb_prop in H. eauto.
Qed.

Lemma hex_color_inv s :
  hex_color s = true ->
  exists c1 c2 c3 c4 c5 c6,
    s = String "#" (String c1 (String c2 (String c3 (String c4 (String c5
          (String c6 EmptyString))))))
    /\ Forall (fun c => is_lower_hex_digit c = true) [c1; c2; c3; c4; c5; c6].
Proof.
  destruct s as [| c rest]; [discriminate |]. unfold hex_color.
  intros H. apply andb_prop in H as [H Hd]. apply andb_prop in H as [Hc Hl].
  apply Ascii.eqb_eq in Hc. subst c. apply Nat.eqb_eq in Hl.
  destruct rest as [| c1 [| c2 [| c3 [| c4 [| c5 [| c6 [| c7 rest]]]]]]];
    try discriminate Hl.
  exists c1, c2, c3, c4, c5, c6. split; [reflexivity |].
  cbn [list_ascii_of_string] in Hd. rewrite forallb_forall in Hd.
  repeat constructor; apply Hd; cbn; tauto.
Qed.

Lemma hex_color_of_digits s1 s2 s3 :
  two_hex_digits s1 = true -> two_hex_digits s2 = true -> two_hex_digits s3 = true ->
  hex_color ("#" +:+ s1 +:+ s2 +:+ s3) = true.
Proof.
  intros H1 H2 H3.
  apply two_hex_digits_inv in H1 as (a1 & a2 & -> & Ha1 & Ha2).
  apply two_hex_digits_inv in H2 as (b1 & b2 & -> & Hb1 & Hb2).
  apply two_hex_digits_inv in H3 as (c1 & c2 & -> & Hc1 & Hc2).
  change (hex_color (String "#" (String a1 (String a2 (String b1 (String b2
            (String c1 (String c2 EmptyString))))))) = true).
  unfold hex_color. cbn -[is_lower_hex_digit].
  rewrite Ha1, Ha2, Hb1, Hb2, Hc1, Hc2. reflexivity.
Qed.

Lemma hex_digit_value_lower c :
  is_lower_hex_digit c = true ->
  exists d, Py.hex_digit_value c = Some d /\ 0 <= d <= 15.
Proof.
  destruct c as [[] [] [] [] [] [] [] []]; vm_compute; try discriminate;
    intros _; eexists; (split; [reflexivity | split; discriminate]).
Qed.

Lemma int16_two_digits c1 c2 :
  is_lower_hex_digit c1 = true -> is_lower_hex_digit c2 = true ->
  exists n, Py.int16 (String c1 (String c2 EmptyString)) = Returned n /\ 0 <= n <= 255.
Proof.
  intros H1 H2.
  apply hex_digit_value_lower in H1 as (d1 & E1 & Hd1).
  apply hex_digit_value_lower in H2 as (d2 & E2 & Hd2).
  exists (16 * (16 * 0 + d1) + d2). unfold Py.int16.
  cbn [Py.hex_digits_value]. rewrite E1, E2. split; [reflexivity | lia].
Qed.

End HexFacts.

(** ** [rgb2hex] *)

Lemma outcome_map_length {A B} (f : A -> outcome B) l l' :
  outcome_map f l = Returned l' -> length l' = length l.
Proof.
  revert l'. induction l as [| x l IH]; intros l'; cbn.
  - intros [= <-]. reflexivity.
  - destruct (f x); [| discriminate]. cbn.
    destruct (outcome_map f l); [| discriminate]. cbn.
    intros [= <-]. cbn. f_equal. apply IH. reflexivity.
Qed.

Lemma outcome_map_Forall {A B} (f : A -> outcome B) (P : B -> Prop) l l' :
  (forall x y, f x = Returned y -> P y) ->
  outcome_map f l = Returned l' -> Forall P l'.
Proof.
  intros Hf. revert l'. induction l as [| x l IH]; intros l'; cbn.
  - intros [= <-]. constructor.
  - destruct (f x) eqn:Ex; [| discriminate]. cbn.
    destruct (outcome_map f l); [| discriminate]. cbn.
    intros [= <-]. constructor; [eapply Hf; eassumption | apply IH; reflexivity].
Qed.

(** What [rgb2hex] returns: the three channels rounded to bytes, each
    written as two digits. *)
Lemma rgb2hex_inv r g b s :
  rgb2hex (r, g, b) = Returned s ->
  exists nr ng nb,
    Py.round (r * 255)%float = Returned nr /\
    Py.round (g * 255)%float = Returned ng /\
    Py.round (b * 255)%float = Returned nb /\
    0 <= nr <= 255 /\ 0 <= ng <= 255 /\ 0 <= nb <= 255 /\
    s = "#" +:+ Py.format_02x nr +:+ Py.format_02x ng +:+ Py.format_02x nb.
Proof.
  unfold rgb2hex, channel_hex. cbn [existsb].
  destruct (out_of_range r) eqn:Hr; [discriminate |].
  destruct (out_of_range g) eqn:Hg; [discriminate |].
  destruct (out_of_range b) eqn:Hb; [discriminate |]. cbn [orb].
  destruct (Py.round (r * 255)) as [nr |] eqn:Er; [| discriminate].
  destruct (Py.round (g * 255)) as [ng |] eqn:Eg; [| discriminate].
  destruct (Py.round (b * 255)) as [nb |] eqn:Eb; [| discriminate].
  cbn [outcome_bind]. intros [= <-]. exists nr, ng, nb.
  pose proof (Binary64.round_channel_range _ _ Hr Er).
  pose proof (Binary64.round_channel_range _ _ Hg Eg).
  pose proof (Binary64.round_channel_range _ _ Hb Eb).
  repeat split; try reflexivity; lia.
Qed.

Lemma rgb2hex_hex_color c s : rgb2hex c = Returned s -> is_hex_color s.
Proof.
  destruct c as [[r g] b]. intros H.
  apply rgb2hex_inv in H as (nr & ng & nb & _ & _ & _ & Hr & Hg & Hb & ->).
  apply HexFacts.hex_color_of_digits; apply HexFacts.format_02x_byte; assumption.
Qed.

Lemma color_channels_digits a1 a2 b1 b2 c1 c2 :
  color_channels (String "#" (String a1 (String a2 (String b1 (String b2
                   (String c1 (String c2 EmptyString)))))))
  = outcome_bind (Py.int16 (String a1 (String a2 EmptyString))) (fun r =>
    outcome_bind (Py.int16 (String b1 (String b2 EmptyString))) (fun g =>
    outcome_bind (Py.int16 (String c1 (String c2 EmptyString))) (fun b =>
    Returned (r, g, b)))).
Proof. reflexivity. Qed.

(** A colour string parses into three bytes. *)
Lemma color_channels_hex s :
  is_hex_color s ->
  exists r g b, color_channels s = Returned (r, g, b)
                /\ 0 <= r <= 255 /\ 0 <= g <= 255 /\ 0 <= b <= 255.
Proof.
  intros H. apply HexFacts.hex_color_inv in H as (a1 & a2 & b1 & b2 & c1 & c2 & -> & Hd).
  rewrite color_channels_digits.
  inversion_clear Hd as [| ? ? Ha1 Hd1]. inversion_clear Hd1 as [| ? ? Ha2 Hd2].
  inversion_clear Hd2 as [| ? ? Hb1 Hd3]. inversion_clear Hd3 as [| ? ? Hb2 Hd4].
  inversion_clear Hd4 as [| ? ? Hc1 Hd5]. inversion_clear Hd5 as [| ? ? Hc2 _].
  destruct (HexFacts.int16_two_digits a1 a2 Ha1 Ha2) as (r & -> & Hr).
  destruct (HexFacts.int16_two_digits b1 b2 Hb1 Hb2) as (g & -> & Hg).
  destruct (HexFacts.int16_two_digits c1 c2 Hc1 Hc2) as (b & -> & Hb).
  exists r, g, b. cbn [outcome_bind]. auto.
Qed.

(** Parsing what was written gives back the bytes. *)
Lemma color_channels_format nr ng nb :
  0 <= nr <= 255 -> 0 <= ng <= 255 -> 0 <= nb <= 255 ->
  color_channels ("#" +:+ Py.format_02x nr +:+ Py.format_02x ng +:+ Py.format_02x nb)
  = Returned (nr, ng, nb).
Proof.
  intros Hr Hg Hb.
  pose proof (HexFacts.int16_format_02x nr Hr) as Er.
  pose proof (HexFacts.int16_format_02x ng Hg) as Eg.
  pose proof (HexFacts.int16_format_02x nb Hb) as Eb.
  destruct (HexFacts.two_hex_digits_inv _ (HexFacts.format_02x_byte nr Hr))
    as (a1 & a2 & Fr & _).
  destruct (HexFacts.two_hex_digits_inv _ (HexFacts.format_02x_byte ng Hg))
    as (b1 & b2 & Fg & _).
  destruct (HexFacts.two_hex_digits_inv _ (HexFacts.format_02x_byte nb Hb))
    as (c1 & c2 & Fb & _).
  rewrite Fr, Fg, Fb in *.
  change ("#" +:+ String a1 (String a2 "") +:+ String b1 (String b2 "")
          +:+ String c1 (String c2 ""))%string
    with (String "#" (String a1 (String a2 (String b1 (String b2
            (String c1 (String c2 EmptyString))))))).
  rewrite color_channels_digits, Er, Eg, Eb. reflexivity.
Qed.

(** ** [extract_colors] *)

Section ExtractColors.
Context (E : Externals).

Lemma handler_run (e : exn) (s : state E) :
  exists msg,
    extract_colors_handler E e s
    = (Returned [], State (color_cache s) (log s ++ [(ERROR, msg)]) (stdout s) (env s)).
Proof. destruct e; eexists; reflexivity. Qed.

(** Every call of [extract_colors] returns, in one of the five ways of
    [extract_spec]. *)
Lemma extract_colors_spec path k show (s : state E) :
  exists colors s',
    extract_colors E path k show s = (Returned colors, s')
    /\ extract_spec E s path k show colors s'.
Proof.
  unfold extract_colors, try_except, extract_colors_body.
  unfold bind at 1. unfold ask at 1.
  destruct (os_path_exists E path (env s)) eqn:Hex; cbn [negb].
  2:{ unfold raise. eexists _, _. split; [reflexivity |].
      apply spec_missing; auto. }
  unfold bind at 1. unfold cache_lookup at 1.
  destruct (color_cache s !! path) as [cached |] eqn:Hc.
  { eexists _, _. split; [reflexivity |]. eapply spec_hit; eauto. }
  unfold bind at 1. unfold external at 1.
  destruct (Image_open E path (env s)) as [[img | e] w1].
  2:{ destruct (handler_run e (set_env w1 s)) as [msg ->].
      eexists _, _. split; [reflexivity |].
      apply (spec_failed E s path k show [] msg); auto. }
  unfold bind at 1. unfold logging at 1. unfold bind at 1. unfold external at 1.
  cbn [env set_env color_cache log stdout].
  destruct (to_pixel_array E img w1) as [[px | e] w2].
  2:{ match goal with |- context [extract_colors_handler E e ?st] =>
        destruct (handler_run e st) as [msg ->] end.
      eexists _, _. split; [reflexivity |].
      apply (spec_failed E s path k show [(DEBUG, ImageLoaded path)] msg); auto.
      cbn. rewrite <- app_assoc. reflexivity. }
  unfold bind at 1. unfold logging at 1. unfold bind at 1. unfold external at 1.
  cbn [env set_env color_cache log stdout].
  destruct (KMeans_centers E k (divide_255 E px) w2) as [[cs | e] w3] eqn:Hk.
  2:{ match goal with |- context [extract_colors_handler E e ?st] =>
        destruct (handler_run e st) as [msg ->] end.
      eexists _, _. split; [reflexivity |].
      apply (spec_failed E s path k show
               [(DEBUG, ImageLoaded path); (DEBUG, PixelArrayShape)] msg); auto.
      cbn. rewrite <- !app_assoc. reflexivity. }
  unfold bind at 1. unfold logging at 1. unfold bind at 1. unfold of_outcome at 1.
  cbn [env set_env color_cache log stdout].
  destruct (outcome_map rgb2hex cs) as [hexs | e] eqn:Hh.
  2:{ match goal with |- context [extract_colors_handler E e ?st] =>
        destruct (handler_run e st) as [msg ->] end.
      eexists _, _. split; [reflexivity |].
      apply (spec_failed E s path k show
               [(DEBUG, ImageLoaded path); (DEBUG, PixelArrayShape);
                (DEBUG, DominantColorsFound cs)] msg); auto.
      cbn. rewrite <- !app_assoc. reflexivity. }
  unfold bind at 1. unfold logging at 1. unfold bind at 1. unfold cache_store at 1.
  cbn [env set_env color_cache log stdout].
  destruct show.
  - unfold bind at 1. unfold display_color_palette, bind at 1.
    unfold logging at 1. unfold external at 1.
    cbn [env set_env color_cache log stdout].
    destruct (show_palette E hexs w3) as [[[] | e] w4] eqn:Hs.
    + unfold ret. eexists _, _. split; [reflexivity |].
      apply (spec_fresh E s path k true (divide_255 E px) w2 w3 cs hexs
               [(DEBUG, ImageLoaded path); (DEBUG, PixelArrayShape);
                (DEBUG, DominantColorsFound cs); (DEBUG, DominantColorsHex hexs);
                (DEBUG, DisplayingPalette hexs)]); auto.
      cbn. rewrite <- !app_assoc. reflexivity.
    + match goal with |- context [extract_colors_handler E e ?st] =>
        destruct (handler_run e st) as [msg ->] end.
      eexists _, _. split; [reflexivity |].
      apply (spec_display_failed E s path k true (divide_255 E px) w2 w3 cs hexs
               [(DEBUG, ImageLoaded path); (DEBUG, PixelArrayShape);
                (DEBUG, DominantColorsFound cs); (DEBUG, DominantColorsHex hexs);
                (DEBUG, DisplayingPalette hexs)] msg e w4); auto.
      cbn. rewrite <- !app_assoc. reflexivity.
  - unfold bind at 1. unfold ret. eexists _, _. split; [reflexivity |].
    apply (spec_fresh E s path k false (divide_255 E px) w2 w3 cs hexs
             [(DEBUG, ImageLoaded path); (DEBUG, PixelArrayShape);
              (DEBUG, DominantColorsFound cs); (DEBUG, DominantColorsHex hexs)]); auto.
    cbn. rewrite <- !app_assoc. reflexivity.
Qed.

End ExtractColors.

(** ** What a call leaves in the cache *)

Section CacheFacts.
Context (E : Externals).

Lemma cache_grows_refl (s : state E) : cache_grows s s.
Proof. split; auto. Qed.

Lemma cache_grows_trans (s1 s2 s3 : state E) :
  cache_grows s1 s2 -> cache_grows s2 s3 -> cache_grows s1 s3.
Proof. intros [H1 W1] [H2 W2]. split; auto. Qed.

Lemma cache_grows_same (s s' : state E) :
  color_cache s' = color_cache s -> cache_grows s s'.
Proof.
  intros Hc. split; [intros; rewrite Hc; assumption |].
  unfold cache_wf. rewrite Hc. auto.
Qed.

Lemma cache_grows_insert (s s' : state E) path colors :
  color_cache s !! path = None ->
  Forall is_hex_color colors ->
  color_cache s' = <[path := colors]> (color_cache s) ->
  cache_grows s s'.
Proof.
  intros Hnone Hcol Hc. split.
  - intros p c Hp. rewrite Hc. rewrite lookup_insert_ne; [assumption | congruence].
  - intros Hwf p c. rewrite Hc, lookup_insert. case_decide.
    + intros [= <-]. assumption.
    + apply Hwf.
Qed.

Lemma extract_spec_grows s path k show colors s' :
  extract_spec E s path k show colors s' -> cache_grows s s'.
Proof.
  destruct 1; try (apply cache_grows_same; assumption).
  - eapply cache_grows_insert; [eassumption | | eassumption].
    eapply outcome_map_Forall; [| eassumption]. apply rgb2hex_hex_color.
  - eapply cache_grows_insert; [eassumption | | eassumption].
    eapply outcome_map_Forall; [| eassumption]. apply rgb2hex_hex_color.
Qed.

(** The colours a call returns are well formed when the cache was. *)
Lemma extract_spec_hex s path k show colors s' :
  cache_wf s -> extract_spec E s path k show colors s' ->
  Forall is_hex_color colors.
Proof.
  intros Hwf H. destruct H.
  - constructor.
  - eapply Hwf; eassumption.
  - constructor.
  - eapply outcome_map_Forall; [| eassumption]. apply rgb2hex_hex_color.
  - constructor.
Qed.

(** A non-empty return value is what the cache now holds for the path. *)
Lemma extract_spec_cached s path k show colors s' :
  extract_spec E s path k show colors s' -> colors <> [] ->
  color_cache s' !! path = Some colors.
Proof.
  destruct 1; intros Hne; try congruence.
  match goal with Hc : color_cache _ = <[_ := _]> _ |- _ => rewrite Hc end.
  apply lookup_insert_eq.
Qed.

Lemma extract_spec_stdout s path k show colors s' :
  extract_spec E s path k show colors s' -> stdout s' = stdout s.
Proof. destruct 1; assumption. Qed.

Lemma extract_colors_returns path k show (s : state E) :
  exists colors, fst (extract_colors E path k show s) = Returned colors.
Proof.
  destruct (extract_colors_spec E path k show s) as (colors & s' & -> & _).
  eauto.
Qed.

Lemma extract_colors_grows path k show (s : state E) :
  cache_grows s (snd (extract_colors E path k show s)).
Proof.
  destruct (extract_colors_spec E path k show s) as (colors & s' & -> & H).
  eapply extract_spec_grows; eassumption.
Qed.

(** A loop keeps what each of its iterations keeps. *)
Lemma for_each_grows {A B} (body : A -> B -> M E B) (l : list A) :
  (forall x acc s, cache_grows s (snd (body x acc s))) ->
  forall acc s, cache_grows s (snd (for_each body l acc s)).
Proof.
  intros Hbody. induction l as [| x l IH]; intros acc s; cbn [for_each].
  - apply cache_grows_refl.
  - unfold bind. pose proof (Hbody x acc s) as H.
    destruct (body x acc s) as [[acc' | e] s1]; cbn [snd] in *.
    + eapply cache_grows_trans; [exact H | apply IH].
    + exact H.
Qed.

Lemma analyze_file_grows k show agg root file acc (s : state E) :
  cache_grows s (snd (analyze_file E k show agg root file acc s)).
Proof.
  unfold analyze_file. destruct (supported file); [| apply cache_grows_refl].
  unfold bind at 1. unfold logging at 1. unfold bind at 1.
  set (s0 := State _ _ _ _).
  pose proof (extract_colors_grows (os_path_join root file) k show s0) as H.
  assert (H0 : cache_grows s s0) by (apply cache_grows_same; reflexivity).
  destruct (extract_colors E _ k show s0) as [[colors | e] s1]; cbn [snd] in *;
    [| eapply cache_grows_trans; eassumption].
  destruct colors as [| c colors]; [eapply cache_grows_trans; eassumption |].
  destruct agg; [| eapply cache_grows_trans; eassumption].
  unfold bind, of_outcome, ret.
  destruct (accumulate _ _ _); cbn [snd]; eapply cache_grows_trans; eassumption.
Qed.

Lemma analyze_walk_grows k show agg walk acc (s : state E) :
  cache_grows s (snd (analyze_walk E k show agg walk acc s)).
Proof.
  unfold analyze_walk. apply for_each_grows.
  intros [[root dirs] files] acc' s'. apply for_each_grows.
  intros file acc'' s''. apply analyze_file_grows.
Qed.

Lemma analyze_directory_grows dir k show agg (s : state E) :
  cache_grows s (snd (analyze_directory E dir k show agg s)).
Proof.
  unfold analyze_directory. unfold bind at 1. unfold ask at 1. unfold bind at 1.
  pose proof (analyze_walk_grows k show agg (os_walk E dir (env s)) empty_analysis s) as H.
  destruct (analyze_walk E k show agg _ empty_analysis s) as [[acc | e] s1];
    cbn [snd] in *; [| exact H].
  destruct (agg && (0 <? image_count acc)); [| exact H].
  unfold bind, of_outcome, ret. destruct (aggregated_result _ _ _); exact H.
Qed.

Lemma print_loop_grows {A} (f : A -> string) (l : list A) (s : state E) :
  cache_grows s (snd (for_each (fun x (_ : unit) => print (f x)) l tt s)).
Proof.
  apply for_each_grows. intros x [] s'. apply cache_grows_same. reflexivity.
Qed.

Lemma main_grows paths dir k show agg lv (s : state E) :
  cache_grows s (snd (main E paths dir k show agg lv s)).
Proof.
  unfold main. unfold bind at 1. unfold logging_basicConfig, ret at 1.
  assert (Hdir : cache_grows s (snd (
    match dir with
    | Some (String c d) =>
        (result <- analyze_directory E (String c d) k show agg ;;
         if agg then
           print ("Aggregated dominant colors for all images:" +:+ Str.newline
                  +:+ format_colors (report_items result))
         else
           match result with
           | PerFile d0 =>
               for_each (fun '(image, colors) (_ : unit) =>
                           print (image_report image colors)) d0 tt
           | Aggregated _ => raise (Exception "'list' object has no attribute 'items'")
           end) s
    | _ => ret tt s
    end))).
  { destruct dir as [[| c d] |]; try apply cache_grows_refl.
    unfold bind at 1.
    pose proof (analyze_directory_grows (String c d) k show agg s) as H.
    destruct (analyze_directory E _ k show agg s) as [[result | e] s1];
      cbn [snd] in *; [| exact H].
    eapply cache_grows_trans; [exact H |].
    destruct agg; [apply cache_grows_same; reflexivity |].
    destruct result as [d0 | palette]; [| apply cache_grows_refl].
    apply for_each_grows. intros [image colors] [] s'.
    apply cache_grows_same. reflexivity. }
  destruct paths as [[| p ps] |].
  - destruct dir as [[| c d] |]; exact Hdir.
  - apply for_each_grows. intros path [] s'. unfold bind.
    pose proof (extract_colors_grows path k show s') as H.
    destruct (extract_colors E path k show s') as [[colors | e] s1];
      cbn [snd] in *; [| exact H].
    destruct colors; [exact H |].
    eapply cache_grows_trans; [exact H | apply cache_grows_same; reflexivity].
  - destruct dir as [[| c d] |]; exact Hdir.
Qed.

Lemma evolves_grows (s s' : state E) : evolves s s' -> cache_grows s s'.
Proof.
  induction 1.
  - apply cache_grows_refl.
  - eapply cache_grows_trans; [eassumption | apply cache_grows_same; reflexivity].
  - eapply cache_grows_trans; [eassumption | apply extract_colors_grows].
  - eapply cache_grows_trans; [eassumption | apply analyze_directory_grows].
  - eapply cache_grows_trans; [eassumption | apply main_grows].
Qed.

Lemma reachable_cache_wf (s : state E) : reachable s -> cache_wf s.
Proof.
  intros [w H]. apply evolves_grows in H as [_ H]. apply H.
  intros p c. cbn. rewrite lookup_empty. discriminate.
Qed.

End CacheFacts.

(** ** Runs of [extract_colors], step by step *)

Section ExtractRuns.
Context (E : Externals).

Lemma extract_missing_run path k show (s : state E) :
  os_path_exists E path (env s) = false ->
  extract_colors E path k show s
  = (Returned [],
     State (color_cache s)
           (log s ++ [(ERROR, ErrorOf (FileNotFoundError
                         ("Image file '" +:+ path +:+ "' not found.")))])
           (stdout s) (env s)).
Proof.
  intros H. unfold extract_colors, try_except, extract_colors_body.
  unfold bind at 1. unfold ask at 1. rewrite H. reflexivity.
Qed.

Lemma extract_hit_run path k show colors (s : state E) :
  os_path_exists E path (env s) = true ->
  color_cache s !! path = Some colors ->
  extract_colors E path k show s
  = (Returned colors,
     State (color_cache s) (log s ++ [(INFO, ReturningCached path)]) (stdout s) (env s)).
Proof.
  intros H Hc. unfold extract_colors, try_except, extract_colors_body.
  unfold bind at 1. unfold ask at 1. rewrite H. cbn [negb].
  unfold bind at 1. unfold cache_lookup at 1. rewrite Hc. reflexivity.
Qed.

Lemma handler_entry_run (e : exn) (s : state E) :
  extract_colors_handler E e s
  = (Returned [], State (color_cache s) (log s ++ [handler_entry e]) (stdout s) (env s)).
Proof. destruct e; reflexivity. Qed.

(** A fresh extraction whose every step succeeds, up to and including the
    store in the cache; [shown] is what the display step then does. *)
Lemma extract_fresh_run path k show (s : state E) img w1 px w2 centers w3 colors :
  os_path_exists E path (env s) = true ->
  color_cache s !! path = None ->
  Image_open E path (env s) = (Returned img, w1) ->
  to_pixel_array E img w1 = (Returned px, w2) ->
  KMeans_centers E k (divide_255 E px) w2 = (Returned centers, w3) ->
  outcome_map rgb2hex centers = Returned colors ->
  extract_colors E path k show s
  = if show then
      match show_palette E colors w3 with
      | (Returned _, w4) =>
          (Returned colors,
           State (<[path := colors]> (color_cache s))
                 (log s ++ extraction_entries path centers colors
                        ++ [(DEBUG, DisplayingPalette colors)])
                 (stdout s) w4)
      | (Raised e, w4) =>
          (Returned [],
           State (<[path := colors]> (color_cache s))
                 (log s ++ extraction_entries path centers colors
                        ++ [(DEBUG, DisplayingPalette colors); handler_entry e])
                 (stdout s) w4)
      end
    else
      (Returned colors,
       State (<[path := colors]> (color_cache s))
             (log s ++ extraction_entries path centers colors) (stdout s) w3).
Proof.
  intros Hex Hc Ho Hp Hk Hh.
  unfold extract_colors, try_except, extract_colors_body.
  unfold bind at 1. unfold ask at 1. rewrite Hex. cbn [negb].
  unfold bind at 1. unfold cache_lookup at 1. rewrite Hc.
  unfold bind at 1. unfold external at 1. rewrite Ho.
  unfold bind at 1. unfold logging at 1. unfold bind at 1. unfold external at 1.
  cbn [env set_env color_cache log stdout]. rewrite Hp.
  unfold bind at 1. unfold logging at 1. unfold bind at 1. unfold external at 1.
  cbn [env set_env color_cache log stdout]. rewrite Hk.
  unfold bind at 1. unfold logging at 1. unfold bind at 1. unfold of_outcome at 1.
  rewrite Hh.
  unfold bind at 1. unfold logging at 1. unfold bind at 1. unfold cache_store at 1.
  cbn [env set_env color_cache log stdout].
  unfold extraction_entries. destruct show.
  - unfold bind at 1. unfold display_color_palette, bind at 1.
    unfold logging at 1. unfold external at 1.
    cbn [env set_env color_cache log stdout].
    destruct (show_palette E colors w3) as [[[] | e] w4].
    + unfold ret. cbn. rewrite <- !app_assoc. reflexivity.
    + rewrite handler_entry_run. cbn. rewrite <- !app_assoc. reflexivity.
  - unfold bind at 1. unfold ret. cbn. rewrite <- !app_assoc. reflexivity.
Qed.

(** Once a path is cached it stays cached with the same colours, so a
    later call returns them as long as the path exists. *)
Lemma cached_later path colors (s1 s2 : state E) k show :
  color_cache s1 !! path = Some colors ->
  evolves s1 s2 ->
  os_path_exists E path (env s2) = true ->
  extract_colors E path k show s2
  = (Returned colors,
     State (color_cache s2) (log s2 ++ [(INFO, ReturningCached path)])
           (stdout s2) (env s2)).
Proof.
  intros Hc Hev Hex. apply extract_hit_run; [assumption |].
  apply evolves_grows in Hev as [Hkeep _]. apply Hkeep. assumption.
Qed.

End ExtractRuns.

(** ** The claims about [extract_colors] *)

Lemma demo_KMeans_contract : KMeans_contract Demo.externals.
Proof.
  intros k px w cs w'. cbn. destruct (Z.ltb_spec k 1); [discriminate |].
  intros [= <- <-]. rewrite length_replicate. split; [lia | reflexivity].
Qed.

(** C1, as stated, fails: the second call returns the first call's list
    "even if the file is removed".  On a disk with one red image the first
    call returns [["#ff0000"]]; after the file is removed the second call
    returns [[]]. *)
Lemma C1_counterexample :
  ~ (forall (E : Externals) (s : state E) path k show colors s1 w' k' show',
       extract_colors E path k show s = (Returned colors, s1) ->
       colors <> [] ->
       fst (extract_colors E path k' show' (set_env w' s1)) = Returned colors).
Proof.
  intros H.
  specialize (H Demo.externals (Demo.start Demo.one_image) "d/a.png"%string 1 false
                ["#ff0000"%string]
                (snd (extract_colors Demo.externals "d/a.png" 1 false
                        (Demo.start Demo.one_image)))
                Demo.no_files 1 false).
  assert (Hfirst : fst (extract_colors Demo.externals "d/a.png" 1 false
                          (Demo.start Demo.one_image)) = Returned ["#ff0000"%string])
    by (vm_compute; reflexivity).
  assert (Hsecond : fst (extract_colors Demo.externals "d/a.png" 1 false
            (Demo.on Demo.no_files
               (snd (extract_colors Demo.externals "d/a.png" 1 false
                       (Demo.start Demo.one_image))))) = Returned [])
    by (vm_compute; reflexivity).
  unfold Demo.on in Hsecond. rewrite Hsecond in H.
  discriminate H.
  - rewrite <- Hfirst. destruct (extract_colors _ _ _ _ _); reflexivity.
  - discriminate.
Qed.

(** C1, amended: after a call returned a non-empty list for a path, every
    later call with that path (any [k], any [show], whatever happened to the
    file's content in between) returns the same list from the cache as long
    as the path exists when the call is made, and returns the empty list,
    logging the missing file, when the path does not exist. *)
Theorem C1_cached_list_while_path_exists
    (E : Externals) (s s1 s2 : state E) path k show colors k' show' :
  extract_colors E path k show s = (Returned colors, s1) ->
  colors <> [] ->
  evolves s1 s2 ->
  (os_path_exists E path (env s2) = true ->
   extract_colors E path k' show' s2
   = (Returned colors,
      State (color_cache s2) (log s2 ++ [(INFO, ReturningCached path)])
            (stdout s2) (env s2)))
  /\ (os_path_exists E path (env s2) = false ->
      extract_colors E path k' show' s2
      = (Returned [],
         State (color_cache s2)
               (log s2 ++ [(ERROR, ErrorOf (FileNotFoundError
                              ("Image file '" +:+ path +:+ "' not found.")))])
               (stdout s2) (env s2))).
Proof.
  intros Hrun Hne Hev. split.
  - intros Hex. eapply cached_later; [| eassumption | assumption].
    destruct (extract_colors_spec E path k show s) as (c & s' & Heq & Hspec).
    rewrite Hrun in Heq. injection Heq as <- <-.
    eapply extract_spec_cached; eassumption.
  - apply extract_missing_run.
Qed.

Lemma C1_witness :
  extract_colors Demo.externals "d/a.png" 3 true
    (Demo.on Demo.repainted
       (snd (extract_colors Demo.externals "d/a.png" 1 false (Demo.start Demo.one_image))))
  = (Returned ["#ff0000"%string],
     Demo.mk (color_cache (snd (extract_colors Demo.externals "d/a.png" 1 false
                                (Demo.start Demo.one_image))))
           (log (snd (extract_colors Demo.externals "d/a.png" 1 false
                        (Demo.start Demo.one_image)))
            ++ [(INFO, ReturningCached "d/a.png")])
           [] Demo.repainted).
Proof.
  refine (proj1 (C1_cached_list_while_path_exists Demo.externals
            (Demo.start Demo.one_image)
            (snd (extract_colors Demo.externals "d/a.png" 1 false (Demo.start Demo.one_image)))
            (Demo.on Demo.repainted
               (snd (extract_colors Demo.externals "d/a.png" 1 false
                       (Demo.start Demo.one_image))))
            "d/a.png"%string 1 false ["#ff0000"%string] 3 true _ _ _) _).
  - vm_compute. reflexivity.
  - discriminate.
  - apply evolves_world, evolves_refl.
  - vm_compute. reflexivity.
Defined.

(** C4: for a path that does not exist, [extract_colors] returns the empty
    list, hands exactly one record to [logging], at error level, and raises
    nothing; the cache, the console and the world are untouched. *)
Theorem C4_missing_path_returns_empty (E : Externals) (s : state E) path k show :
  os_path_exists E path (env s) = false ->
  exists entry,
    is_error entry = true
    /\ extract_colors E path k show s
       = (Returned [], State (color_cache s) (log s ++ [entry]) (stdout s) (env s)).
Proof.
  intros H. eexists. split; [| apply extract_missing_run; assumption]. reflexivity.
Qed.

Lemma C4_witness :
  exists entry,
    is_error entry = true
    /\ extract_colors Demo.externals "d/missing.png" 5 false (Demo.start Demo.one_image)
       = (Returned [], Demo.mk ∅ [entry] [] Demo.one_image).
Proof.
  apply (C4_missing_path_returns_empty Demo.externals (Demo.start Demo.one_image)
           "d/missing.png"%string 5 false).
  vm_compute. reflexivity.
Defined.

(** C3, as stated, fails: a failure of the renderer does not reach the
    caller.  On a disk with one red image, [extract_colors(path, 1, True)]
    computes the one-colour palette, the renderer raises on it, and the call
    returns the empty list. *)
Lemma C3_counterexample :
  show_palette Demo.externals ["#ff0000"%string] Demo.one_image
  = (Raised (Exception "'Axes' object is not subscriptable"), Demo.one_image)
  /\ fst (extract_colors Demo.externals "d/a.png" 1 true (Demo.start Demo.one_image))
     = Returned []
  /\ forall e, fst (extract_colors Demo.externals "d/a.png" 1 true
                      (Demo.start Demo.one_image)) <> Raised e.
Proof.
  assert (H : fst (extract_colors Demo.externals "d/a.png" 1 true
                     (Demo.start Demo.one_image)) = Returned [])
    by (vm_compute; reflexivity).
  split; [reflexivity |]. split; [exact H |]. intros e. rewrite H. discriminate.
Qed.

(** C3, amended: when the renderer raises while [extract_colors] displays
    the palette, the exception is caught by the [except] clauses of
    [extract_colors]: the call returns the empty list and the last record it
    logs is the error record of that exception. *)
Theorem C3_display_failure_is_caught
    (E : Externals) (s : state E) path k img w1 px w2 centers w3 colors e w4 :
  os_path_exists E path (env s) = true ->
  color_cache s !! path = None ->
  Image_open E path (env s) = (Returned img, w1) ->
  to_pixel_array E img w1 = (Returned px, w2) ->
  KMeans_centers E k (divide_255 E px) w2 = (Returned centers, w3) ->
  outcome_map rgb2hex centers = Returned colors ->
  show_palette E colors w3 = (Raised e, w4) ->
  exists s',
    extract_colors E path k true s = (Returned [], s')
    /\ log s' = log s ++ extraction_entries path centers colors
                      ++ [(DEBUG, DisplayingPalette colors); handler_entry e]
    /\ is_error (handler_entry e) = true
    /\ stdout s' = stdout s /\ env s' = w4.
Proof.
  intros Hex Hc Ho Hp Hk Hh Hs.
  rewrite (extract_fresh_run E path k true s img w1 px w2 centers w3 colors) by assumption.
  rewrite Hs. eexists. split; [reflexivity |]. cbn [log stdout env].
  repeat split. destruct e; reflexivity.
Qed.

Lemma C3_witness :
  exists s',
    extract_colors Demo.externals "d/a.png" 1 true (Demo.start Demo.one_image)
    = (Returned [], s')
    /\ log s' = extraction_entries "d/a.png" [Demo.red] ["#ff0000"%string]
                ++ [(DEBUG, DisplayingPalette ["#ff0000"%string]);
                    (ERROR, ErrorWhileExtracting "'Axes' object is not subscriptable")]
    /\ is_error (ERROR, ErrorWhileExtracting "'Axes' object is not subscriptable") = true
    /\ stdout s' = [] /\ env s' = Demo.one_image.
Proof.
  apply (C3_display_failure_is_caught Demo.externals (Demo.start Demo.one_image)
           "d/a.png"%string 1 Demo.red Demo.one_image Demo.red Demo.one_image
           [Demo.red] Demo.one_image ["#ff0000"%string]
           (Exception "'Axes' object is not subscriptable") Demo.one_image);
    vm_compute; reflexivity.
Defined.

(** C9, as stated, fails in its last part: "every subsequent call with the
    same path returns that cached list".  After the failed display the cache
    holds [["#ff0000"]], but once the file is removed a call with the same
    path returns the empty list. *)
Lemma C9_counterexample :
  let s1 := snd (extract_colors Demo.externals "d/a.png" 1 true (Demo.start Demo.one_image)) in
  fst (extract_colors Demo.externals "d/a.png" 1 true (Demo.start Demo.one_image))
  = Returned []
  /\ color_cache s1 !! "d/a.png"%string = Some ["#ff0000"%string]
  /\ fst (extract_colors Demo.externals "d/a.png" 1 true (Demo.on Demo.no_files s1))
     = Returned []
  /\ fst (extract_colors Demo.externals "d/a.png" 1 true (Demo.on Demo.no_files s1))
     <> Returned ["#ff0000"%string].
Proof.
  cbv zeta.
  assert (H : fst (extract_colors Demo.externals "d/a.png" 1 true
                     (Demo.on Demo.no_files
                        (snd (extract_colors Demo.externals "d/a.png" 1 true
                                (Demo.start Demo.one_image))))) = Returned [])
    by (vm_compute; reflexivity).
  split; [vm_compute; reflexivity |]. split; [vm_compute; reflexivity |].
  split; [exact H |]. rewrite H. discriminate.
Qed.

(** C9, amended: [extract_colors(path, k, True)] is not atomic on a
    renderer failure.  The cache is written before the palette is
    displayed, so when the display fails the call returns the empty list
    while the cache holds the non-empty colour list for the path, and every
    later call with that path, made while the path exists, returns that
    list. *)
Theorem C9_cache_written_before_display
    (E : Externals) (s : state E) path k img w1 px w2 centers w3 colors e w4 :
  KMeans_contract E ->
  os_path_exists E path (env s) = true ->
  color_cache s !! path = None ->
  Image_open E path (env s) = (Returned img, w1) ->
  to_pixel_array E img w1 = (Returned px, w2) ->
  KMeans_centers E k (divide_255 E px) w2 = (Returned centers, w3) ->
  outcome_map rgb2hex centers = Returned colors ->
  show_palette E colors w3 = (Raised e, w4) ->
  exists s1,
    extract_colors E path k true s = (Returned [], s1)
    /\ colors <> []
    /\ color_cache s1 = <[path := colors]> (color_cache s)
    /\ forall s2 k' show',
         evolves s1 s2 ->
         os_path_exists E path (env s2) = true ->
         fst (extract_colors E path k' show' s2) = Returned colors.
Proof.
  intros Hkm Hex Hc Ho Hp Hk Hh Hs.
  rewrite (extract_fresh_run E path k true s img w1 px w2 centers w3 colors) by assumption.
  rewrite Hs. eexists. split; [reflexivity |]. split; [| split; [reflexivity |]].
  - apply Hkm in Hk as [Hk1 Hlen]. apply outcome_map_length in Hh.
    intros ->. cbn in Hh. lia.
  - intros s2 k' show' Hev Hex2.
    erewrite cached_later; [reflexivity | | eassumption | assumption].
    cbn [color_cache]. apply lookup_insert_eq.
Qed.

Lemma C9_witness :
  exists s1,
    extract_colors Demo.externals "d/a.png" 1 true (Demo.start Demo.one_image)
    = (Returned [], s1)
    /\ ["#ff0000"%string] <> []
    /\ color_cache s1 = <["d/a.png"%string := ["#ff0000"%string]]> ∅
    /\ forall s2 k' show',
         evolves s1 s2 ->
         os_path_exists Demo.externals "d/a.png" (env s2) = true ->
         fst (extract_colors Demo.externals "d/a.png" k' show' s2)
         = Returned ["#ff0000"%string].
Proof.
  apply (C9_cache_written_before_display Demo.externals (Demo.start Demo.one_image)
           "d/a.png"%string 1 Demo.red Demo.one_image Demo.red Demo.one_image
           [Demo.red] Demo.one_image ["#ff0000"%string]
           (Exception "'Axes' object is not subscriptable") Demo.one_image);
    [exact demo_KMeans_contract | vm_compute; reflexivity ..].
Defined.

(** ** The loops of [analyze_directory] *)

Lemma sums_after_nil sums : sums_after [] sums sums.
Proof. intros i. reflexivity. Qed.

Lemma sums_after_cons p ps sums sums1 sums2 :
  (forall i, sums_at sums1 i
             = match p !! i with
               | Some c => rgb_add (sums_at sums i) (color_rgb c)
               | None => sums_at sums i
               end) ->
  sums_after ps sums1 sums2 ->
  sums_after (p :: ps) sums sums2.
Proof.
  intros H1 H2 i. rewrite H2, H1. cbn [omap list_omap].
  change (omap (fun p0 : list string => p0 !! i) (p :: ps))
    with (match p !! i with
          | Some c => c :: omap (fun p0 : list string => p0 !! i) ps
          | None => omap (fun p0 : list string => p0 !! i) ps
          end).
  destruct (p !! i); reflexivity.
Qed.

(** Accumulating a palette of colour strings never raises, and adds the
    channels of its [i]-th colour to the [i]-th sum. *)
Lemma accumulate_hex colors : forall start sums,
  Forall is_hex_color colors ->
  exists sums',
    accumulate start colors sums = Returned sums'
    /\ forall i,
         sums_at sums' i
         = match (if (start <=? i)%nat then colors !! (i - start)%nat else None) with
           | Some c => rgb_add (sums_at sums i) (color_rgb c)
           | None => sums_at sums i
           end.
Proof.
  induction colors as [| color rest IH]; intros start sums Hhex.
  - exists sums. split; [reflexivity |]. intros i.
    destruct (start <=? i)%nat; reflexivity.
  - inversion_clear Hhex as [| ? ? Hc Hrest].
    destruct (color_channels_hex color Hc) as (r & g & b & Hch & _).
    cbn [accumulate]. rewrite Hch. cbn [outcome_bind].
    destruct (IH (S start) (<[start := rgb_add (sums_at sums start)
                                         (rgb_of_channels (r, g, b))]> sums) Hrest)
      as (sums' & -> & Hsums).
    exists sums'. split; [reflexivity |]. intros i. rewrite Hsums.
    assert (Hrgb : color_rgb color = rgb_of_channels (r, g, b))
      by (unfold color_rgb; rewrite Hch; reflexivity).
    destruct (Nat.leb_spec (S start) i) as [Hle | Hgt].
    + replace (start <=? i)%nat with true by (symmetry; apply Nat.leb_le; lia).
      replace (i - start)%nat with (S (i - S start)) by lia. cbn [lookup list_lookup].
      change ((color :: rest) !! S (i - S start)) with (rest !! (i - S start)%nat).
      unfold sums_at at 1 3. rewrite lookup_insert_ne by lia. reflexivity.
    + destruct (Nat.leb_spec start i) as [Hle' | Hgt'].
      * assert (i = start) by lia. subst i. rewrite Nat.sub_diag.
        change ((color :: rest) !! 0%nat) with (Some color).
        unfold sums_at at 1. rewrite lookup_insert_eq. cbn [default].
        rewrite Hrgb. reflexivity.
      * unfold sums_at at 1 2. rewrite lookup_insert_ne by lia. reflexivity.
Qed.

Lemma record_results_app t1 t2 d :
  record_results (t1 ++ t2) d = record_results t2 (record_results t1 d).
Proof. unfold record_results. apply fold_left_app. Qed.

Lemma palettes_of_app t1 t2 : palettes_of (t1 ++ t2) = palettes_of t1 ++ palettes_of t2.
Proof. unfold palettes_of. rewrite map_app. apply List.filter_app. Qed.

Lemma sums_after_app ps1 ps2 sums sums1 sums2 :
  sums_after ps1 sums sums1 -> sums_after ps2 sums1 sums2 ->
  sums_after (ps1 ++ ps2) sums sums2.
Proof.
  intros H1 H2 i. rewrite H2, H1, omap_app, fold_left_app. reflexivity.
Qed.

Section AnalyzeFacts.
Context (E : Externals) (k : Z) (show : bool).

Local Abbreviation logged_extract := (logged_extract E k show).

Lemma analysis_after_nil agg acc : analysis_after agg [] acc acc.
Proof.
  split; [reflexivity |]. destruct agg; cbn; split; try reflexivity; try lia.
  apply sums_after_nil.
Qed.

Lemma analysis_after_app agg t1 t2 acc acc1 acc2 :
  analysis_after agg t1 acc acc1 -> analysis_after agg t2 acc1 acc2 ->
  analysis_after agg (t1 ++ t2) acc acc2.
Proof.
  intros [Hr1 H1] [Hr2 H2]. split.
  - rewrite record_results_app, <- Hr1. exact Hr2.
  - destruct agg.
    + destruct H1 as [Hc1 Hs1], H2 as [Hc2 Hs2]. rewrite palettes_of_app. split.
      * rewrite length_app. lia.
      * eapply sums_after_app; eassumption.
    + destruct H1 as [Hc1 Hs1], H2 as [Hc2 Hs2]. split; congruence.
Qed.

Lemma logged_extract_returns path s :
  exists colors s1, logged_extract path s = (Returned colors, s1).
Proof.
  unfold logged_extract.
  destruct (extract_colors_spec E path k show
              (State (color_cache s) (log s ++ [(INFO, AnalyzingImage path)])
                     (stdout s) (env s))) as (colors & s1 & H & _).
  eauto.
Qed.

Lemma extract_each_cons file path rest s colors s1 :
  logged_extract path s = (Returned colors, s1) ->
  extract_each E k show ((file, path) :: rest) s
  = ((file, colors) :: fst (extract_each E k show rest s1),
     snd (extract_each E k show rest s1)).
Proof.
  intros H. cbn [extract_each]. unfold bind, logging. fold (logged_extract path s).
  rewrite H. destruct (extract_each E k show rest s1). reflexivity.
Qed.

Lemma extract_each_app j1 : forall j2 s,
  extract_each E k show (j1 ++ j2) s
  = (fst (extract_each E k show j1 s)
       ++ fst (extract_each E k show j2 (snd (extract_each E k show j1 s))),
     snd (extract_each E k show j2 (snd (extract_each E k show j1 s)))).
Proof.
  induction j1 as [| [file path] j1 IH]; intros j2 s.
  - cbn. destruct (extract_each E k show j2 s). reflexivity.
  - destruct (logged_extract_returns path s) as (colors & s1 & H).
    rewrite <- app_comm_cons, !(extract_each_cons _ _ _ _ _ _ H), IH. reflexivity.
Qed.

(** The state only moves by extractions: the loop body on one supported
    file. *)
Lemma analyze_file_supported agg root file acc s colors s1 :
  supported file = true ->
  logged_extract (os_path_join root file) s = (Returned colors, s1) ->
  (agg = true -> Forall is_hex_color colors) ->
  exists acc',
    analyze_file E k show agg root file acc s = (Returned acc', s1)
    /\ analysis_after agg [(file, colors)] acc acc'.
Proof.
  intros Hsup Hrun Hhex. unfold analyze_file. rewrite Hsup.
  unfold bind at 1. unfold logging at 1. unfold bind at 1.
  fold (logged_extract (os_path_join root file) s). rewrite Hrun.
  destruct colors as [| c colors].
  - exists acc. split; [reflexivity |]. apply analysis_after_nil.
  - destruct agg.
    + destruct (accumulate_hex (c :: colors) 0%nat (aggregate_colors acc) (Hhex eq_refl))
        as (sums' & Hacc & Hsums).
      unfold bind, of_outcome. rewrite Hacc. eexists. split; [reflexivity |].
      split; [reflexivity |]. cbn [image_count aggregate_colors palettes_of map snd
                                     List.filter length].
      split; [lia |].
      eapply sums_after_cons; [| apply sums_after_nil].
      intros i. rewrite Hsums. cbn [Nat.leb]. rewrite Nat.sub_0_r. reflexivity.
    + eexists. split; [reflexivity |]. split; [reflexivity |]. cbn. auto.
Qed.

Lemma analyze_files_run agg root files : forall acc s,
  (agg = true ->
   Forall (fun x => Forall is_hex_color x.2)
     (fst (extract_each E k show
             (map (fun file => (file, os_path_join root file)) (List.filter supported files))
             s))) ->
  exists acc',
    for_each (analyze_file E k show agg root) files acc s
    = (Returned acc',
       snd (extract_each E k show
              (map (fun file => (file, os_path_join root file)) (List.filter supported files))
              s))
    /\ analysis_after agg
         (fst (extract_each E k show
                 (map (fun file => (file, os_path_join root file))
                      (List.filter supported files)) s))
         acc acc'.
Proof.
  induction files as [| file files IH]; intros acc s Hhex.
  - exists acc. split; [reflexivity |]. apply analysis_after_nil.
  - cbn [List.filter for_each] in *. destruct (supported file) eqn:Hsup.
    + cbn [map] in *.
      destruct (logged_extract_returns (os_path_join root file) s) as (colors & s1 & Hrun).
      rewrite (extract_each_cons _ _ _ _ _ _ Hrun) in *. cbn [fst snd] in *.
      destruct (analyze_file_supported agg root file acc s colors s1 Hsup Hrun)
        as (acc1 & Hfile & Hafter1).
      { intros Hagg. specialize (Hhex Hagg). inversion Hhex. assumption. }
      destruct (IH acc1 s1) as (acc2 & Hrest & Hafter2).
      { intros Hagg. specialize (Hhex Hagg). inversion Hhex. assumption. }
      exists acc2. split.
      * unfold bind. rewrite Hfile. exact Hrest.
      * apply (analysis_after_app agg [(file, colors)] _ acc acc1 acc2); assumption.
    + destruct (IH acc s Hhex) as (acc2 & Hrest & Hafter2).
      exists acc2. split; [| assumption].
      unfold bind. unfold analyze_file at 1. rewrite Hsup. exact Hrest.
Qed.

(** The whole walk: [analyze_walk] makes the extractions of [walk_jobs], in
    order, and folds their results into its locals. *)
Lemma analyze_walk_run agg walk : forall acc s,
  (agg = true ->
   Forall (fun x => Forall is_hex_color x.2) (fst (extract_each E k show (walk_jobs walk) s))) ->
  exists acc',
    analyze_walk E k show agg walk acc s
    = (Returned acc', snd (extract_each E k show (walk_jobs walk) s))
    /\ analysis_after agg (fst (extract_each E k show (walk_jobs walk) s)) acc acc'.
Proof.
  unfold analyze_walk.
  induction walk as [| [[root dirs] files] walk IH]; intros acc s Hhex.
  - exists acc. split; [reflexivity |]. apply analysis_after_nil.
  - cbn [walk_jobs flat_map for_each] in *. rewrite extract_each_app in *.
    cbn [fst snd] in *.
    destruct (analyze_files_run agg root files acc s) as (acc1 & Hfiles & Hafter1).
    { intros Hagg. specialize (Hhex Hagg). apply Forall_app in Hhex. tauto. }
    destruct (IH acc1 (snd (extract_each E k show
                (map (fun file => (file, os_path_join root file))
                     (List.filter supported files)) s)))
      as (acc2 & Hrest & Hafter2).
    { intros Hagg. specialize (Hhex Hagg). apply Forall_app in Hhex. tauto. }
    exists acc2. split.
    + unfold bind. rewrite Hfiles. exact Hrest.
    + eapply analysis_after_app; eassumption.
Qed.

(** Every run of extractions from a well-formed cache returns colour
    strings only and leaves a well-formed cache. *)
Lemma extract_each_hex jobs : forall s,
  cache_wf s ->
  Forall (fun x => Forall is_hex_color x.2) (fst (extract_each E k show jobs s))
  /\ cache_wf (snd (extract_each E k show jobs s)).
Proof.
  induction jobs as [| [file path] jobs IH]; intros s Hwf.
  - cbn. split; [constructor | assumption].
  - unfold logged_extract.
    destruct (extract_colors_spec E path k show
                (State (color_cache s) (log s ++ [(INFO, AnalyzingImage path)])
                       (stdout s) (env s))) as (colors & s1 & Hrun & Hspec).
    rewrite (extract_each_cons file path jobs s colors s1 Hrun). cbn [fst snd].
    assert (Hwf0 : cache_wf (State (color_cache s) (log s ++ [(INFO, AnalyzingImage path)])
                                   (stdout s) (env s))) by exact Hwf.
    pose proof (extract_spec_hex E _ _ _ _ _ _ Hwf0 Hspec) as Hcol.
    apply extract_spec_grows in Hspec as [_ Hwf1].
    destruct (IH s1 (Hwf1 Hwf0)) as [Hrest Hwf2].
    split; [constructor; assumption | assumption].
Qed.

End AnalyzeFacts.

(** ** Dictionaries *)

Module DictFacts.

Lemma get_set_eq {V} (k : string) (v : V) d : Dict.get k (Dict.set k v d) = Some v.
Proof.
  induction d as [| [k' v'] d IH]; cbn.
  - rewrite String.eqb_refl. reflexivity.
  - destruct (String.eqb k k') eqn:Ek; cbn; rewrite ?String.eqb_refl, ?Ek; auto.
Qed.

Lemma get_set_ne {V} (k k0 : string) (v : V) d :
  k0 <> k -> Dict.get k0 (Dict.set k v d) = Dict.get k0 d.
Proof.
  intros Hne. induction d as [| [k' v'] d IH]; cbn.
  - destruct (String.eqb_spec k0 k); [contradiction | reflexivity].
  - destruct (String.eqb_spec k k') as [-> | Hk]; cbn.
    + destruct (String.eqb_spec k0 k'); [contradiction | reflexivity].
    + rewrite IH. reflexivity.
Qed.

(** Assigning to a key adds at most one entry, at the end, and keeps the
    place of a key that is present. *)
Lemma keys_set {V} (k : string) (v : V) d :
  Dict.keys (Dict.set k v d)
  = if bool_decide (k ∈ Dict.keys d) then Dict.keys d else Dict.keys d ++ [k].
Proof.
  unfold Dict.keys. induction d as [| [k' v'] d IH]; cbn.
  - reflexivity.
  - destruct (String.eqb_spec k k') as [-> | Hk]; cbn.
    + rewrite bool_decide_eq_true_2 by (left). reflexivity.
    + rewrite IH. destruct (bool_decide (k ∈ map fst d)) eqn:Hin.
      * apply bool_decide_eq_true_1 in Hin.
        rewrite bool_decide_eq_true_2 by (right; assumption). reflexivity.
      * apply bool_decide_eq_false_1 in Hin.
        rewrite bool_decide_eq_false_2; [reflexivity |].
        intros Hin'. apply elem_of_cons in Hin' as [? | ?]; [contradiction | auto].
Qed.

Lemma length_set {V} (k : string) (v : V) d :
  (length (Dict.set k v d) <= S (length d))%nat.
Proof.
  induction d as [| [k' v'] d IH]; cbn; [lia |].
  destruct (String.eqb k k'); cbn; lia.
Qed.

Lemma keys_set_NoDup {V} (k : string) (v : V) d :
  NoDup (Dict.keys d) -> NoDup (Dict.keys (Dict.set k v d)).
Proof.
  intros Hnd. rewrite keys_set. case_bool_decide as Hin; [assumption |].
  apply NoDup_app. split; [assumption |]. split.
  - intros x Hx Hk. apply list_elem_of_singleton in Hk. subst. contradiction.
  - apply NoDup_singleton.
Qed.

Lemma get_Some_keys {V} (k : string) (v : V) d :
  Dict.get k d = Some v -> k ∈ Dict.keys d.
Proof.
  unfold Dict.keys. induction d as [| [k' v'] d IH]; cbn; [discriminate |].
  destruct (String.eqb_spec k k') as [-> | Hk]; intros H.
  - left.
  - right. auto.
Qed.

End DictFacts.

(** ** What the per-file dictionary holds *)

Lemma record_results_length trace : forall d,
  (length (record_results trace d) <= length d + length trace)%nat.
Proof.
  induction trace as [| [file colors] trace IH]; intros d; cbn; [lia |].
  destruct colors as [| c colors].
  - specialize (IH d). unfold record_results in IH. lia.
  - specialize (IH (Dict.set file (c :: colors) d)).
    pose proof (DictFacts.length_set file (c :: colors) d).
    unfold record_results in IH. lia.
Qed.

Lemma record_results_NoDup trace : forall d,
  NoDup (Dict.keys d) -> NoDup (Dict.keys (record_results trace d)).
Proof.
  induction trace as [| [file colors] trace IH]; intros d Hd; cbn; [assumption |].
  destruct colors as [| c colors]; apply IH; [assumption |].
  apply DictFacts.keys_set_NoDup. assumption.
Qed.

(** An entry of the dictionary was there before or was returned, non-empty,
    by an extraction made under that file name. *)
Lemma record_results_get trace : forall d file colors,
  Dict.get file (record_results trace d) = Some colors ->
  Dict.get file d = Some colors \/ ((file, colors) ∈ trace /\ colors <> []).
Proof.
  induction trace as [| [f c] trace IH]; intros d file colors H; cbn in H; [auto |].
  destruct c as [| c0 c].
  - destruct (IH _ _ _ H) as [? | [? ?]]; [auto |]. right. split; [right |]; assumption.
  - destruct (IH _ _ _ H) as [Hd | [? ?]]; [| right; split; [right |]; assumption].
    destruct (decide (file = f)) as [-> | Hne].
    + rewrite DictFacts.get_set_eq in Hd. injection Hd as <-.
      right. split; [left | discriminate].
    + rewrite DictFacts.get_set_ne in Hd by assumption. auto.
Qed.

(** Extractions that returned nothing under a file name leave its entry. *)
Lemma record_results_skip trace file : forall d,
  (forall c, (file, c) ∈ trace -> c = []) ->
  Dict.get file (record_results trace d) = Dict.get file d.
Proof.
  induction trace as [| [f c] trace IH]; intros d Hempty; cbn; [reflexivity |].
  assert (Hrest : forall c', (file, c') ∈ trace -> c' = [])
    by (intros c' Hin; apply Hempty; right; assumption).
  destruct c as [| c0 c]; [apply IH; assumption |].
  change (Dict.get file (record_results trace (Dict.set f (c0 :: c) d)) = Dict.get file d).
  rewrite IH by assumption.
  apply DictFacts.get_set_ne. intros ->.
  specialize (Hempty (c0 :: c)). discriminate Hempty. left.
Qed.

(** The last non-empty extraction under a file name is the entry. *)
Lemma record_results_last t1 file colors t2 d :
  colors <> [] ->
  (forall c, (file, c) ∈ t2 -> c = []) ->
  Dict.get file (record_results (t1 ++ (file, colors) :: t2) d) = Some colors.
Proof.
  intros Hne Hempty. rewrite record_results_app.
  destruct colors as [| c0 c]; [contradiction |].
  change (record_results ((file, c0 :: c) :: t2) (record_results t1 d))
    with (record_results t2 (Dict.set file (c0 :: c) (record_results t1 d))).
  rewrite record_results_skip by assumption. apply DictFacts.get_set_eq.
Qed.

Lemma record_results_keys trace : forall d file,
  file ∈ Dict.keys (record_results trace d) ->
  file ∈ Dict.keys d \/ file ∈ map fst trace.
Proof.
  induction trace as [| [f c] trace IH]; intros d file H; cbn in H; [auto |].
  destruct c as [| c0 c].
  - destruct (IH _ _ H); [auto | right; right; assumption].
  - destruct (IH _ _ H) as [Hd | ?]; [| right; right; assumption].
    rewrite DictFacts.keys_set in Hd. case_bool_decide; [auto |].
    apply elem_of_app in Hd as [? | Hd]; [auto |].
    apply list_elem_of_singleton in Hd. subst. right. left.
Qed.

Lemma record_results_empty trace : forall d,
  palettes_of trace = [] -> record_results trace d = d.
Proof.
  induction trace as [| [f c] trace IH]; intros d H; [reflexivity |].
  unfold palettes_of in H. cbn in H. destruct c as [| c0 c]; [| discriminate].
  cbn. apply IH. exact H.
Qed.

Lemma palettes_of_empty_hex trace :
  palettes_of trace = [] -> Forall (fun x => Forall is_hex_color x.2) trace.
Proof.
  induction trace as [| [f c] trace IH]; intros H; [constructor |].
  unfold palettes_of in H. cbn in H. destruct c as [| c0 c]; [| discriminate].
  constructor; [constructor | apply IH; exact H].
Qed.

(** ** [analyze_directory] *)

Lemma outcome_map_ext {A B} (f g : A -> outcome B) l :
  (forall x, f x = g x) -> outcome_map f l = outcome_map g l.
Proof.
  intros H. induction l as [| x l IH]; cbn; [reflexivity |]. rewrite H, IH. reflexivity.
Qed.

Lemma walk_jobs_supported walk file path :
  (file, path) ∈ walk_jobs walk -> supported file = true.
Proof.
  unfold walk_jobs. rewrite list_elem_of_In, in_flat_map.
  intros ([[root dirs] files] & _ & Hin).
  apply in_map_iff in Hin as (f & [= <- _] & Hf).
  apply List.filter_In in Hf. tauto.
Qed.

Lemma filter_supported_idem files :
  List.filter supported (List.filter supported files) = List.filter supported files.
Proof.
  induction files as [| f files IH]; [reflexivity |].
  cbn [List.filter]. destruct (supported f) eqn:Hf; [| assumption].
  cbn [List.filter]. rewrite Hf, IH. reflexivity.
Qed.

Lemma walk_jobs_only_supported walk : walk_jobs (only_supported walk) = walk_jobs walk.
Proof.
  unfold walk_jobs, only_supported.
  induction walk as [| [[root dirs] files] walk IH]; [reflexivity |].
  cbn [map flat_map]. rewrite IH, filter_supported_idem. reflexivity.
Qed.

Section AnalyzeDirectory.
Context (E : Externals) (k : Z) (show : bool).

Lemma extract_each_files jobs : forall s,
  map fst (fst (extract_each E k show jobs s)) = map fst jobs.
Proof.
  induction jobs as [| [file path] jobs IH]; intros s; [reflexivity |].
  destruct (logged_extract_returns E k show path s) as (colors & s1 & H).
  rewrite (extract_each_cons E k show file path jobs s colors s1 H). cbn.
  rewrite IH. reflexivity.
Qed.

(** Unsupported files are skipped: the loop does the same, to the state and
    to its locals, with or without them. *)
Lemma for_each_skips_unsupported agg root files : forall acc s,
  for_each (analyze_file E k show agg root) (List.filter supported files) acc s
  = for_each (analyze_file E k show agg root) files acc s.
Proof.
  induction files as [| f files IH]; intros acc s; [reflexivity |].
  cbn [List.filter]. destruct (supported f) eqn:Hf.
  - cbn [for_each]. unfold bind.
    destruct (analyze_file E k show agg root f acc s) as [[acc' | e] s']; [apply IH | reflexivity].
  - cbn [for_each]. unfold bind. unfold analyze_file at 2. rewrite Hf. apply IH.
Qed.

Lemma analyze_walk_only_supported agg walk : forall acc s,
  analyze_walk E k show agg (only_supported walk) acc s
  = analyze_walk E k show agg walk acc s.
Proof.
  unfold analyze_walk.
  induction walk as [| [[root dirs] files] walk IH]; intros acc s; [reflexivity |].
  cbn [only_supported map for_each]. unfold bind.
  rewrite for_each_skips_unsupported.
  destruct (for_each (analyze_file E k show agg root) files acc s) as [[acc' | e] s'];
    [apply IH | reflexivity].
Qed.

(** Without aggregation, [analyze_directory] returns the dictionary of the
    extractions it made for the supported files of the walk. *)
Lemma analyze_directory_per_file dir (s : state E) :
  analyze_directory E dir k show false s
  = (Returned (PerFile (record_results
                 (fst (extract_each E k show (walk_jobs (os_walk E dir (env s))) s)) [])),
     snd (extract_each E k show (walk_jobs (os_walk E dir (env s))) s)).
Proof.
  unfold analyze_directory. unfold bind at 1. unfold ask at 1. unfold bind at 1.
  destruct (analyze_walk_run E k show false (os_walk E dir (env s)) empty_analysis s)
    as (acc' & -> & Hres & _); [discriminate |].
  cbn [andb]. unfold ret. rewrite Hres. reflexivity.
Qed.

(** With aggregation, it returns the averaged palette as soon as one
    extraction returned colours, and the (empty) dictionary otherwise. *)
Lemma analyze_directory_aggregate dir (s : state E) :
  Forall (fun x => Forall is_hex_color x.2)
    (fst (extract_each E k show (walk_jobs (os_walk E dir (env s))) s)) ->
  analyze_directory E dir k show true s
  = (match palettes_of (fst (extract_each E k show (walk_jobs (os_walk E dir (env s))) s)) with
     | [] => Returned (PerFile [])
     | p :: ps =>
         match average_palette (p :: ps) k with
         | Returned palette => Returned (Aggregated palette)
         | Raised e => Raised e
         end
     end,
     snd (extract_each E k show (walk_jobs (os_walk E dir (env s))) s)).
Proof.
  intros Hhex.
  unfold analyze_directory. unfold bind at 1. unfold ask at 1. unfold bind at 1.
  destruct (analyze_walk_run E k show true (os_walk E dir (env s)) empty_analysis s)
    as (acc' & -> & Hres & Hcount & Hsums); [intros _; exact Hhex |].
  cbn [andb image_count aggregate_colors empty_analysis] in *.
  remember (fst (extract_each E k show (walk_jobs (os_walk E dir (env s))) s)) as trace.
  destruct (palettes_of trace) as [| p ps] eqn:Hp.
  - cbn in Hcount. rewrite Hcount. cbn. unfold ret.
    rewrite Hres, record_results_empty by assumption. reflexivity.
  - replace (0 <? image_count acc') with true
      by (symmetry; apply Z.ltb_lt; rewrite Hcount; cbn [length]; lia).
    assert (Heq : aggregated_result (aggregate_colors acc') (image_count acc') k
                  = average_palette (p :: ps) k).
    { unfold aggregated_result, average_palette. apply outcome_map_ext.
      intros i. unfold average_color. rewrite Hsums, Hcount.
      unfold channel_sum. rewrite Z.add_0_l. reflexivity. }
    unfold bind, of_outcome, ret. rewrite Heq.
    destruct (average_palette (p :: ps) k); reflexivity.
Qed.

End AnalyzeDirectory.

(** ** The claims about [analyze_directory] *)

(** C2, as stated, fails in its example: for two images whose palettes are
    [["#ff0000"]] and [["#0000ff"]] and [k = 1] the aggregated palette is
    [["#800080"]], not [["#7f007f"]]: the average channel is 127.5, and
    [rgb2hex] rounds it to the even neighbour 128. *)
Lemma C2_counterexample :
  palettes_of (fst (extract_each Demo.externals 1 false
                      (walk_jobs (Demo.tree Demo.two_images)) (Demo.start Demo.two_images)))
  = [["#ff0000"]; ["#0000ff"]]%string
  /\ fst (analyze_directory Demo.externals "d" 1 false true (Demo.start Demo.two_images))
     = Returned (Aggregated ["#800080"%string])
  /\ fst (analyze_directory Demo.externals "d" 1 false true (Demo.start Demo.two_images))
     <> Returned (Aggregated ["#7f007f"%string]).
Proof.
  assert (H : fst (analyze_directory Demo.externals "d" 1 false true
                     (Demo.start Demo.two_images))
              = Returned (Aggregated ["#800080"%string])) by (vm_compute; reflexivity).
  split; [vm_compute; reflexivity |]. split; [exact H |]. rewrite H. discriminate.
Qed.

(** C2, amended: with [aggregate=True], when at least one image yields
    colours, the [i]-th entry of the aggregated palette, for [i] below
    [num_colors], is [rgb2hex] of the float64 sum of the [i]-th colours'
    channels over the images, divided by [image_count] and then by [255.0];
    [rgb2hex] rounds each channel times 255 to the nearest integer, ties to
    even.  For two images whose palettes are [["#ff0000"]] and
    [["#0000ff"]] and [k = 1] the result is [["#800080"]]. *)
Theorem C2_aggregated_palette (E : Externals) dir k show (s : state E) :
  cache_wf s ->
  palettes_of (fst (extract_each E k show (walk_jobs (os_walk E dir (env s))) s)) <> [] ->
  analyze_directory E dir k show true s
  = (match average_palette
             (palettes_of (fst (extract_each E k show
                                  (walk_jobs (os_walk E dir (env s))) s))) k with
     | Returned palette => Returned (Aggregated palette)
     | Raised e => Raised e
     end,
     snd (extract_each E k show (walk_jobs (os_walk E dir (env s))) s))
  /\ (k = 1 ->
      palettes_of (fst (extract_each E k show (walk_jobs (os_walk E dir (env s))) s))
      = [["#ff0000"]; ["#0000ff"]]%string ->
      fst (analyze_directory E dir k show true s) = Returned (Aggregated ["#800080"%string])).
Proof.
  intros Hwf Hne.
  pose proof (proj1 (extract_each_hex E k show (walk_jobs (os_walk E dir (env s))) s Hwf))
    as Hhex.
  pose proof (analyze_directory_aggregate E k show dir s Hhex) as Hrun.
  destruct (palettes_of _) as [| p ps] eqn:Hp; [contradiction |].
  split; [exact Hrun |].
  intros -> [= -> ->]. rewrite Hrun. vm_compute. reflexivity.
Qed.

Lemma C2_witness :
  fst (analyze_directory Demo.externals "d" 1 false true (Demo.start Demo.two_images))
  = Returned (Aggregated ["#800080"%string]).
Proof.
  refine (proj2 (C2_aggregated_palette Demo.externals "d"%string 1 false
                   (Demo.start Demo.two_images) _ _) _ _).
  - intros p c. vm_compute. discriminate.
  - vm_compute. discriminate.
  - reflexivity.
  - vm_compute. reflexivity.
Defined.

(** C6: with [aggregate=True], when no image yields colours,
    [analyze_directory] returns the empty dictionary: the guard
    [image_count > 0] keeps the division from running. *)
Theorem C6_no_image_no_division (E : Externals) dir k show (s : state E) :
  palettes_of (fst (extract_each E k show (walk_jobs (os_walk E dir (env s))) s)) = [] ->
  analyze_directory E dir k show true s
  = (Returned (PerFile []), snd (extract_each E k show (walk_jobs (os_walk E dir (env s))) s)).
Proof.
  intros Hp.
  rewrite (analyze_directory_aggregate E k show dir s (palettes_of_empty_hex _ Hp)).
  rewrite Hp. reflexivity.
Qed.

Lemma C6_witness :
  analyze_directory Demo.externals "d" 5 false true (Demo.start Demo.broken)
  = (Returned (PerFile []),
     snd (extract_each Demo.externals 5 false (walk_jobs (Demo.tree Demo.broken))
            (Demo.start Demo.broken))).
Proof.
  apply (C6_no_image_no_division Demo.externals "d"%string 5 false (Demo.start Demo.broken)).
  vm_compute. reflexivity.
Defined.

(** C7: without aggregation, [analyze_directory] returns a dictionary with
    at most as many entries as the walk has files with a supported
    extension (case-insensitive); every key has a supported extension; the
    extractions made are those of the supported files; and the files with
    another extension change nothing: the loops do the same on the walk
    without them. *)
Theorem C7_only_supported_files (E : Externals) dir k show (s : state E) :
  exists res,
    analyze_directory E dir k show false s
    = (Returned (PerFile res),
       snd (extract_each E k show (walk_jobs (os_walk E dir (env s))) s))
    /\ (length res <= length (walk_jobs (os_walk E dir (env s))))%nat
    /\ (forall file, file ∈ Dict.keys res ->
          supported file = true /\ file ∈ map fst (walk_jobs (os_walk E dir (env s))))
    /\ analyze_walk E k show false (only_supported (os_walk E dir (env s))) empty_analysis s
       = analyze_walk E k show false (os_walk E dir (env s)) empty_analysis s.
Proof.
  eexists. split; [apply analyze_directory_per_file |]. split; [| split].
  - etransitivity; [apply record_results_length |]. cbn [length].
    rewrite <- (length_map fst (fst _)), extract_each_files, length_map. lia.
  - intros file Hin. apply record_results_keys in Hin as [Hin | Hin].
    + cbn in Hin. apply elem_of_nil in Hin. contradiction.
    + rewrite extract_each_files in Hin. split; [| assumption].
      apply list_elem_of_fmap in Hin as ([f path] & -> & Hin).
      eapply walk_jobs_supported. eassumption.
  - apply analyze_walk_only_supported.
Qed.

(** C10: without aggregation the dictionary is keyed by file name, not by
    path.  When two supported files of the walk have the same name and both
    yield colours, the dictionary has one entry for the name, and it holds
    the colours of the file visited last. *)
Theorem C10_same_name_last_wins
    (E : Externals) dir k show (s : state E) file c1 c2 t1 tm t2 :
  fst (extract_each E k show (walk_jobs (os_walk E dir (env s))) s)
  = t1 ++ (file, c1) :: tm ++ (file, c2) :: t2 ->
  c1 <> [] -> c2 <> [] ->
  (forall c, (file, c) ∈ t2 -> c = []) ->
  exists res,
    fst (analyze_directory E dir k show false s) = Returned (PerFile res)
    /\ Dict.get file res = Some c2
    /\ NoDup (Dict.keys res).
Proof.
  intros Htrace _ Hc2 Hlast. rewrite analyze_directory_per_file. cbn [fst].
  eexists. split; [reflexivity |]. split.
  - rewrite Htrace.
    replace (t1 ++ (file, c1) :: tm ++ (file, c2) :: t2)
      with ((t1 ++ (file, c1) :: tm) ++ (file, c2) :: t2)
      by (rewrite <- app_assoc; reflexivity).
    apply record_results_last; assumption.
  - apply record_results_NoDup. constructor.
Qed.

Lemma C10_witness :
  exists res,
    fst (analyze_directory Demo.externals "d" 1 false false (Demo.start Demo.same_name))
    = Returned (PerFile res)
    /\ Dict.get "a.png" res = Some ["#0000ff"%string]
    /\ NoDup (Dict.keys res).
Proof.
  apply (C10_same_name_last_wins Demo.externals "d"%string 1 false
           (Demo.start Demo.same_name) "a.png"%string
           ["#ff0000"%string] ["#0000ff"%string] [] [] []).
  - vm_compute. reflexivity.
  - discriminate.
  - discriminate.
  - intros c Hin. apply elem_of_nil in Hin. contradiction.
Defined.

(** ** The claim about the shape of the colours *)

(** C5, as stated, fails in its bound on the length: the cache is keyed by
    the path alone, so a call with a smaller [k] returns the longer list
    that an earlier call cached.  After [extract_colors(path, 2)] the call
    [extract_colors(path, 1)] returns two colours. *)
Lemma C5_counterexample :
  ~ (forall (E : Externals), KMeans_contract E ->
     forall (s : state E), reachable s ->
     forall path k show colors s',
       0 < k ->
       extract_colors E path k show s = (Returned colors, s') ->
       (length colors <= Z.to_nat k)%nat /\ Forall is_hex_color colors).
Proof.
  intros H.
  specialize (H Demo.externals demo_KMeans_contract
                (snd (extract_colors Demo.externals "d/a.png" 2 false
                        (Demo.start Demo.one_image)))).
  destruct (H (ex_intro _ Demo.one_image
                 (evolves_extract Demo.externals _ _ "d/a.png"%string 2 false
                    (evolves_refl Demo.externals _)))
              "d/a.png"%string 1 false ["#ff0000"; "#ff0000"]%string
              (snd (extract_colors Demo.externals "d/a.png" 1 false
                      (snd (extract_colors Demo.externals "d/a.png" 2 false
                              (Demo.start Demo.one_image)))))
              ltac:(lia)) as [Hlen _].
  - vm_compute. reflexivity.
  - cbn in Hlen. lia.
Qed.

(** C5, amended: every colour string the program produces has the form
    [#rrggbb] with lower-case hexadecimal digits.  A call of
    [extract_colors] for a path that is not cached returns [k] colours or
    none; for a cached path it returns the cached list whatever [k] is (or
    none when the path no longer exists).  An aggregated palette has
    exactly [k] entries. *)
Theorem C5_colors_are_hex (E : Externals) (s : state E) :
  KMeans_contract E ->
  reachable s ->
  (forall path k show colors s',
     extract_colors E path k show s = (Returned colors, s') ->
     Forall is_hex_color colors
     /\ (color_cache s !! path = None ->
         colors = [] \/ (1 <= k /\ length colors = Z.to_nat k))
     /\ (forall cached, color_cache s !! path = Some cached ->
         colors = cached \/ colors = []))
  /\ (forall dir k show agg r s',
        analyze_directory E dir k show agg s = (Returned r, s') ->
        match r with
        | Aggregated palette =>
            Forall is_hex_color palette /\ length palette = Z.to_nat k
        | PerFile d =>
            forall file colors, Dict.get file d = Some colors -> Forall is_hex_color colors
        end).
Proof.
  intros Hkm Hreach. apply reachable_cache_wf in Hreach. split.
  - intros path k show colors s' Hrun.
    destruct (extract_colors_spec E path k show s) as (c & s1 & Heq & Hspec).
    rewrite Hrun in Heq. injection Heq as <- <-.
    split; [eapply extract_spec_hex; eassumption |].
    destruct Hspec; (split; [intros Hnone | intros cached Hsome]);
      try congruence; auto; try (left; congruence).
    right. match goal with Hk : KMeans_centers _ _ _ _ = _ |- _ => apply Hkm in Hk as [? Hlen] end.
    match goal with Hh : outcome_map _ _ = _ |- _ => apply outcome_map_length in Hh end.
    split; [assumption | congruence].
  - intros dir k show agg r s' Hrun.
    destruct (extract_each_hex E k show (walk_jobs (os_walk E dir (env s))) s Hreach)
      as [Hhex _].
    destruct agg.
    + rewrite (analyze_directory_aggregate E k show dir s Hhex) in Hrun.
      destruct (palettes_of _) as [| p ps].
      * injection Hrun as <- <-. intros file colors. discriminate.
      * destruct (average_palette (p :: ps) k) as [palette |] eqn:Havg; [| discriminate].
        injection Hrun as <- <-. unfold average_palette in Havg. split.
        -- eapply outcome_map_Forall; [| exact Havg].
           intros i y. apply rgb2hex_hex_color.
        -- apply outcome_map_length in Havg. rewrite Havg. apply length_seq.
    + rewrite analyze_directory_per_file in Hrun. injection Hrun as <- <-.
      intros file colors Hget. apply record_results_get in Hget as [Hget | [Hin _]].
      * discriminate.
      * rewrite List.Forall_forall in Hhex. apply list_elem_of_In in Hin.
        apply (Hhex _ Hin).
Qed.

Lemma C5_witness :
  (forall path k show colors s',
     extract_colors Demo.externals path k show (Demo.start Demo.one_image)
     = (Returned colors, s') ->
     Forall is_hex_color colors
     /\ (color_cache (Demo.start Demo.one_image) !! path = None ->
         colors = [] \/ (1 <= k /\ length colors = Z.to_nat k))
     /\ (forall cached, color_cache (Demo.start Demo.one_image) !! path = Some cached ->
         colors = cached \/ colors = []))
  /\ (forall dir k show agg r s',
        analyze_directory Demo.externals dir k show agg (Demo.start Demo.one_image)
        = (Returned r, s') ->
        match r with
        | Aggregated palette =>
            Forall is_hex_color palette /\ length palette = Z.to_nat k
        | PerFile d =>
            forall file colors, Dict.get file d = Some colors -> Forall is_hex_color colors
        end).
Proof.
  apply (C5_colors_are_hex Demo.externals (Demo.start Demo.one_image)).
  - exact demo_KMeans_contract.
  - exists Demo.one_image. apply evolves_refl.
Defined.

(** ** [format_colors] *)

Module StrFacts.

Lemma append_nil_r s : (s +:+ "")%string = s.
Proof.
  induction s as [| c s IH]; [reflexivity |].
  change (String c (s +:+ "") = String c s). rewrite IH. reflexivity.
Qed.

Lemma newline_free_append a b :
  Str.newline_free (a +:+ b) = Str.newline_free a && Str.newline_free b.
Proof.
  unfold Str.newline_free. induction a as [| c a IH]; [reflexivity |].
  change (String c a +:+ b)%string with (String c (a +:+ b)).
  cbn [list_ascii_of_string forallb]. rewrite IH. apply andb_assoc.
Qed.

Lemma split_lines_append a : forall s,
  Str.newline_free a = true ->
  Str.split_lines (a +:+ s)
  = match Str.split_lines s with
    | [] => [a]
    | l :: ls => (a +:+ l) :: ls
    end.
Proof.
  induction a as [| c a IH]; intros s Hfree.
  - change ("" +:+ s)%string with s.
    destruct (Str.split_lines s) eqn:Hs; [| reflexivity].
    destruct s as [| c s]; cbn in *; [discriminate |].
    destruct (Ascii.eqb c _); [discriminate |]. destruct (Str.split_lines s); discriminate.
  - unfold Str.newline_free in Hfree. cbn in Hfree. apply andb_prop in Hfree as [Hc Hfree].
    apply negb_true_iff in Hc.
    change (String c a +:+ s)%string with (String c (a +:+ s)).
    cbn [Str.split_lines]. rewrite Hc, (IH s Hfree).
    destruct (Str.split_lines s); reflexivity.
Qed.

Lemma split_lines_free a : Str.newline_free a = true -> Str.split_lines a = [a].
Proof.
  intros H. rewrite <- (append_nil_r a) at 1. rewrite split_lines_append by assumption.
  cbn. rewrite append_nil_r. reflexivity.
Qed.

(** Joining lines with newlines and splitting again gives the lines. *)
Lemma split_lines_join l :
  l <> [] -> Forall (fun s => Str.newline_free s = true) l ->
  Str.split_lines (Str.join Str.newline l) = l.
Proof.
  induction l as [| x l IH]; intros Hne Hfree; [contradiction |].
  inversion_clear Hfree as [| ? ? Hx Hl]. destruct l as [| y l].
  - cbn. apply split_lines_free. assumption.
  - change (Str.join Str.newline (x :: y :: l))
      with (x +:+ (Str.newline +:+ Str.join Str.newline (y :: l)))%string.
    rewrite split_lines_append by assumption.
    change (Str.newline +:+ Str.join Str.newline (y :: l))%string
      with (String (ascii_of_nat 10) (Str.join Str.newline (y :: l))).
    cbn [Str.split_lines]. rewrite Ascii.eqb_refl, IH by (assumption || discriminate).
    rewrite append_nil_r. reflexivity.
Qed.

Lemma newline_free_uint d :
  Str.newline_free (DecimalString.NilEmpty.string_of_uint d) = true.
Proof. induction d; cbn; auto. Qed.

Lemma newline_free_of_nat n : Str.newline_free (Str.of_nat n) = true.
Proof.
  unfold Str.of_nat, DecimalString.NilZero.string_of_uint.
  destruct (Nat.to_uint n) eqn:Hd; try reflexivity; rewrite <- Hd; apply newline_free_uint.
Qed.

Lemma newline_free_format_line i color :
  Str.newline_free color = true -> Str.newline_free (format_line i color) = true.
Proof.
  intros H. unfold format_line.
  rewrite !newline_free_append, newline_free_of_nat, H. reflexivity.
Qed.

Lemma hex_color_newline_free s : is_hex_color s -> Str.newline_free s = true.
Proof.
  intros H. apply HexFacts.hex_color_inv in H as (c1 & c2 & c3 & c4 & c5 & c6 & -> & Hd).
  unfold Str.newline_free. cbn [list_ascii_of_string forallb].
  assert (Hnl : forall c, is_lower_hex_digit c = true ->
                          negb (Ascii.eqb c (ascii_of_nat 10)) = true).
  { intros c Hc. destruct (Ascii.eqb_spec c (ascii_of_nat 10)) as [-> | ?]; [| reflexivity].
    vm_compute in Hc. discriminate. }
  inversion_clear Hd as [| ? ? H1 Hd1]. inversion_clear Hd1 as [| ? ? H2 Hd2].
  inversion_clear Hd2 as [| ? ? H3 Hd3]. inversion_clear Hd3 as [| ? ? H4 Hd4].
  inversion_clear Hd4 as [| ? ? H5 Hd5]. inversion_clear Hd5 as [| ? ? H6 _].
  rewrite (Hnl c1 H1), (Hnl c2 H2), (Hnl c3 H3), (Hnl c4 H4), (Hnl c5 H5), (Hnl c6 H6).
  reflexivity.
Qed.

End StrFacts.

(** C8: the report of [format_colors] is the header line
    [Dominant colors extracted:] followed by one line per colour,
    [Color N: <color>] with [N] the 1-based index, the lines separated by
    newlines (for an empty list the header is followed by one empty line).
    For [["#112233", "#445566"]] the lines are the header,
    [Color 1: #112233] and [Color 2: #445566]. *)
Theorem C8_format_colors_lines (colors : list string) :
  format_colors colors
  = Str.join Str.newline
      ("Dominant colors extracted:"%string
       :: match colors with
          | [] => [EmptyString]
          | _ :: _ =>
              imap (fun i color => "Color " +:+ Str.of_nat (i + 1) +:+ ": " +:+ color)%string
                   colors
          end)
  /\ (Forall (fun color => Str.newline_free color = true) colors ->
      Str.split_lines (format_colors colors)
      = "Dominant colors extracted:"%string
        :: match colors with
           | [] => [EmptyString]
           | _ :: _ =>
               imap (fun i color => "Color " +:+ Str.of_nat (i + 1) +:+ ": " +:+ color)%string
                    colors
           end)
  /\ Str.split_lines (format_colors ["#112233"; "#445566"]%string)
     = ["Dominant colors extracted:"; "Color 1: #112233"; "Color 2: #445566"]%string.
Proof.
  assert (Hjoin : format_colors colors
    = Str.join Str.newline
        ("Dominant colors extracted:"%string
         :: match colors with
            | [] => [EmptyString]
            | _ :: _ => imap format_line colors
            end)).
  { unfold format_colors. destruct colors as [| c colors]; [reflexivity |].
    cbn [Str.join imap]. reflexivity. }
  split; [exact Hjoin |]. split; [| vm_compute; reflexivity].
  intros Hfree. rewrite Hjoin. apply StrFacts.split_lines_join; [discriminate |].
  constructor; [reflexivity |].
  destruct colors as [| c colors]; [repeat constructor |].
  apply Forall_forall. intros line Hin.
  apply elem_of_lookup_imap in Hin as (i & color & -> & Hlook).
  apply StrFacts.newline_free_format_line.
  rewrite Forall_forall in Hfree. apply Hfree.
  eapply list_elem_of_lookup_2. eassumption.
Qed.

Lemma C8_witness :
  Str.split_lines (format_colors ["#a0b1c2"]%string)
  = ["Dominant colors extracted:"; "Color 1: #a0b1c2"]%string.
Proof.
  refine (proj1 (proj2 (C8_format_colors_lines ["#a0b1c2"%string])) _).
  repeat constructor.
Defined.

(** * Further properties of the script *)

(** ** [extract_colors]: what a call does and never does *)

Lemma error_entries_app l1 l2 :
  error_entries (l1 ++ l2) = error_entries l1 ++ error_entries l2.
Proof. unfold error_entries. apply List.filter_app. Qed.

(** X1: [extract_colors] never raises and never prints: whatever the
    file, the libraries and the renderer do, the call returns a list. *)
Theorem X1_extract_colors_never_raises (E : Externals) path k show (s : state E) :
  exists colors s',
    extract_colors E path k show s = (Returned colors, s')
    /\ stdout s' = stdout s.
Proof.
  destruct (extract_colors_spec E path k show s) as (colors & s' & Hrun & Hspec).
  exists colors, s'. split; [assumption |]. eapply extract_spec_stdout; eassumption.
Qed.

(** X2: the script never overwrites or removes a cache entry: once a path
    is cached it stays cached with the same colours through every later
    call of [extract_colors], [analyze_directory] and [main], whatever
    happens to the files. *)
Theorem X2_cache_entries_persist (E : Externals) (s s' : state E) path colors :
  evolves s s' ->
  color_cache s !! path = Some colors ->
  color_cache s' !! path = Some colors.
Proof. intros Hev. apply evolves_grows in Hev as [Hkeep _]. apply Hkeep. Qed.

Lemma X2_witness :
  color_cache
    (snd (analyze_directory Demo.externals "d" 3 false true
            (Demo.on Demo.repainted
               (snd (extract_colors Demo.externals "d/a.png" 1 false
                       (Demo.start Demo.one_image))))))
  !! "d/a.png"%string = Some ["#ff0000"%string].
Proof.
  apply (X2_cache_entries_persist Demo.externals
           (snd (extract_colors Demo.externals "d/a.png" 1 false (Demo.start Demo.one_image)))).
  - apply evolves_analyze, evolves_world, evolves_refl.
  - vm_compute. reflexivity.
Defined.

(** X3: a call of [extract_colors] leaves the cache entries of all other
    paths as they were. *)
Theorem X3_extract_touches_own_path (E : Externals) path k show (s : state E) p :
  p <> path ->
  color_cache (snd (extract_colors E path k show s)) !! p = color_cache s !! p.
Proof.
  intros Hne.
  destruct (extract_colors_spec E path k show s) as (colors & s' & -> & Hspec).
  cbn [snd]. destruct Hspec;
    match goal with
    | Hc : color_cache _ = color_cache _ |- _ => rewrite Hc; reflexivity
    | Hc : color_cache _ = <[_ := _]> _ |- _ =>
        rewrite Hc; apply lookup_insert_ne; congruence
    end.
Qed.

Lemma X3_witness :
  color_cache (snd (extract_colors Demo.externals "d/b.png" 2 false
                      (snd (extract_colors Demo.externals "d/a.png" 1 false
                              (Demo.start Demo.two_images)))))
  !! "d/a.png"%string
  = color_cache (snd (extract_colors Demo.externals "d/a.png" 1 false
                        (Demo.start Demo.two_images))) !! "d/a.png"%string.
Proof.
  apply (X3_extract_touches_own_path Demo.externals "d/b.png"%string 2 false
           (snd (extract_colors Demo.externals "d/a.png" 1 false
                   (Demo.start Demo.two_images))) "d/a.png"%string).
  discriminate.
Defined.

(** X4: a call of [extract_colors] only appends to the log, at most one
    record at error level, and none when it returns colours. *)
Theorem X4_extract_error_records (E : Externals) path k show (s : state E) :
  exists colors s' added,
    extract_colors E path k show s = (Returned colors, s')
    /\ log s' = log s ++ added
    /\ (length (error_entries added) <= 1)%nat
    /\ (colors <> [] -> error_entries added = []).
Proof.
  destruct (extract_colors_spec E path k show s) as (colors & s' & Hrun & Hspec).
  exists colors, s'. destruct Hspec.
  - eexists. repeat split; [eassumption | eassumption | cbn; lia | congruence].
  - eexists. repeat split; [eassumption | eassumption | cbn; lia | reflexivity].
  - exists (added ++ [(ERROR, msg)]). repeat split; try assumption; try congruence.
    rewrite error_entries_app.
    match goal with Ha : error_entries added = [] |- _ => rewrite Ha end. cbn. lia.
  - exists added. repeat split; try assumption; try (intros _; assumption).
    match goal with Ha : error_entries added = [] |- _ => rewrite Ha end. cbn. lia.
  - exists (added ++ [(ERROR, msg)]). repeat split; try assumption; try congruence.
    rewrite error_entries_app.
    match goal with Ha : error_entries added = [] |- _ => rewrite Ha end. cbn. lia.
Qed.

(** X5: on a cache hit neither [num_colors] nor [display_palette] is looked
    at: the cached list is returned, the palette is not displayed and the
    world is left alone, whatever the two arguments are. *)
Theorem X5_cache_hit_ignores_arguments
    (E : Externals) path k show k' show' colors (s : state E) :
  os_path_exists E path (env s) = true ->
  color_cache s !! path = Some colors ->
  extract_colors E path k show s = extract_colors E path k' show' s
  /\ env (snd (extract_colors E path k show s)) = env s.
Proof.
  intros Hex Hc.
  rewrite !(extract_hit_run E path _ _ colors s Hex Hc). split; reflexivity.
Qed.

Lemma X5_witness :
  extract_colors Demo.externals "d/a.png" 1 false
    (snd (extract_colors Demo.externals "d/a.png" 2 false (Demo.start Demo.one_image)))
  = extract_colors Demo.externals "d/a.png" 7 true
      (snd (extract_colors Demo.externals "d/a.png" 2 false (Demo.start Demo.one_image)))
  /\ env (snd (extract_colors Demo.externals "d/a.png" 1 false
                 (snd (extract_colors Demo.externals "d/a.png" 2 false
                         (Demo.start Demo.one_image)))))
     = Demo.one_image.
Proof.
  apply (X5_cache_hit_ignores_arguments Demo.externals "d/a.png"%string 1 false 7 true
           ["#ff0000"; "#ff0000"]%string
           (snd (extract_colors Demo.externals "d/a.png" 2 false (Demo.start Demo.one_image))));
    vm_compute; reflexivity.
Defined.

(** ** Writing a colour and reading it back *)

(** X6: the channels that [analyze_directory] parses out of a colour string
    written by [rgb2hex] are the bytes that [rgb2hex] rounded the float
    channels to: [int(s[1:3], 16)] is [round(r * 255)], and so on, each in
    [0, 255]. *)
Theorem X6_rgb2hex_round_trip r g b s :
  rgb2hex (r, g, b) = Returned s ->
  exists nr ng nb,
    Py.round (r * 255)%float = Returned nr
    /\ Py.round (g * 255)%float = Returned ng
    /\ Py.round (b * 255)%float = Returned nb
    /\ 0 <= nr <= 255 /\ 0 <= ng <= 255 /\ 0 <= nb <= 255
    /\ color_channels s = Returned (nr, ng, nb).
Proof.
  intros H. apply rgb2hex_inv in H as (nr & ng & nb & Hr & Hg & Hb & Br & Bg & Bb & ->).
  exists nr, ng, nb. repeat split; try assumption; try lia.
  apply color_channels_format; assumption.
Qed.

Lemma X6_witness :
  exists nr ng nb,
    Py.round (0.25 * 255)%float = Returned nr
    /\ Py.round (0.5 * 255)%float = Returned ng
    /\ Py.round (1 * 255)%float = Returned nb
    /\ 0 <= nr <= 255 /\ 0 <= ng <= 255 /\ 0 <= nb <= 255
    /\ color_channels "#4080ff" = Returned (nr, ng, nb).
Proof.
  apply (X6_rgb2hex_round_trip 0.25 0.5 1 "#4080ff"%string).
  vm_compute. reflexivity.
Defined.

(** X7: accumulating a palette of colour strings never raises; it adds the
    channels of the palette's [i]-th colour to the [i]-th running sum and
    leaves the sums at the other indices alone. *)
Theorem X7_accumulate_palette colors sums :
  Forall is_hex_color colors ->
  exists sums',
    accumulate 0 colors sums = Returned sums'
    /\ forall i,
         sums_at sums' i
         = match colors !! i with
           | Some c => rgb_add (sums_at sums i) (color_rgb c)
           | None => sums_at sums i
           end.
Proof.
  intros Hhex. destruct (accumulate_hex colors 0%nat sums Hhex) as (sums' & Hrun & Hsums).
  exists sums'. split; [assumption |]. intros i. rewrite Hsums.
  cbn [Nat.leb]. rewrite Nat.sub_0_r. reflexivity.
Qed.

Lemma X7_witness :
  exists sums',
    accumulate 0 ["#ff0000"; "#0000ff"]%string ∅ = Returned sums'
    /\ forall i,
         sums_at sums' i
         = match ["#ff0000"; "#0000ff"]%string !! i with
           | Some c => rgb_add (sums_at ∅ i) (color_rgb c)
           | None => sums_at ∅ i
           end.
Proof.
  apply (X7_accumulate_palette ["#ff0000"; "#0000ff"]%string ∅).
  repeat constructor.
Defined.

(** ** Which files qualify *)

Module SuffixFacts.

Lemma lower_append a b : Str.lower (a +:+ b) = (Str.lower a +:+ Str.lower b)%string.
Proof.
  induction a as [| c a IH]; [reflexivity |].
  change (String c a +:+ b)%string with (String c (a +:+ b)).
  cbn [Str.lower]. rewrite IH. reflexivity.
Qed.

Lemma length_lower s : String.length (Str.lower s) = String.length s.
Proof. induction s as [| c s IH]; cbn; [reflexivity |]. rewrite IH. reflexivity. Qed.

Lemma length_append a b :
  String.length (a +:+ b) = (String.length a + String.length b)%nat.
Proof.
  induction a as [| c a IH]; [reflexivity |].
  change (String c a +:+ b)%string with (String c (a +:+ b)).
  cbn [String.length]. rewrite IH. reflexivity.
Qed.

Lemma substring_all b : String.substring 0 (String.length b) b = b.
Proof. induction b as [| c b IH]; cbn; [reflexivity |]. rewrite IH. reflexivity. Qed.

Lemma substring_append_r a b :
  String.substring (String.length a) (String.length b) (a +:+ b) = b.
Proof.
  induction a as [| c a IH]; [apply substring_all |].
  change (String c a +:+ b)%string with (String c (a +:+ b)).
  cbn [String.length String.substring]. exact IH.
Qed.

(** A string ends with what was appended to it. *)
Lemma endswith_append a b : Str.endswith (a +:+ b) b = true.
Proof.
  unfold Str.endswith. rewrite length_append.
  replace (String.length b <=? String.length a + String.length b)%nat with true
    by (symmetry; apply Nat.leb_le; lia).
  replace (String.length a + String.length b - String.length b)%nat
    with (String.length a) by lia.
  rewrite substring_append_r. apply String.eqb_refl.
Qed.

Lemma substring_split s : forall n,
  (n <= String.length s)%nat ->
  s = (String.substring 0 n s +:+ String.substring n (String.length s - n) s)%string.
Proof.
  induction s as [| c s IH]; intros n Hn.
  - cbn in Hn. replace n with 0%nat by lia. reflexivity.
  - destruct n as [| n].
    + cbn [String.length Nat.sub]. change (String.substring 0 0 (String c s)) with EmptyString.
      change ("" +:+ String.substring 0 (S (String.length s)) (String c s))%string
        with (String.substring 0 (S (String.length s)) (String c s)).
      symmetry. apply (substring_all (String c s)).
    + cbn [String.length] in *. cbn [String.substring Nat.sub].
      change (String c (String.substring 0 n s) +:+ String.substring n (String.length s - n) s)%string
        with (String c (String.substring 0 n s +:+ String.substring n (String.length s - n) s)).
      f_equal. apply IH. lia.
Qed.

(** A string that ends with [suf] is something followed by [suf]. *)
Lemma endswith_inv s suf :
  Str.endswith s suf = true -> exists pre, s = (pre +:+ suf)%string.
Proof.
  unfold Str.endswith. intros H. apply andb_prop in H as [Hlen Heq].
  apply Nat.leb_le in Hlen. apply String.eqb_eq in Heq.
  exists (String.substring 0 (String.length s - String.length suf) s).
  pose proof (substring_split s (String.length s - String.length suf) ltac:(lia)) as Hsp.
  replace (String.length s - (String.length s - String.length suf))%nat
    with (String.length suf) in Hsp by lia.
  rewrite Heq in Hsp. exact Hsp.
Qed.

Lemma lower_split s : forall a b,
  Str.lower s = (a +:+ b)%string ->
  exists a' b', s = (a' +:+ b')%string /\ Str.lower a' = a /\ Str.lower b' = b.
Proof.
  induction s as [| c s IH]; intros a b H.
  - destruct a as [| ca a]; [| discriminate].
    destruct b as [| cb b]; [| discriminate].
    exists EmptyString, EmptyString. auto.
  - destruct a as [| ca a].
    + exists EmptyString, (String c s). auto.
    + change (String ca a +:+ b)%string with (String ca (a +:+ b)) in H.
      cbn [Str.lower] in H. injection H as Hc Hs.
      destruct (IH a b Hs) as (a' & b' & -> & <- & <-).
      exists (String c a'), b'. cbn [Str.lower]. rewrite Hc. auto.
Qed.

End SuffixFacts.

(** X8: a file qualifies exactly when its name is some prefix, possibly
    empty, followed by an extension that is one of the five supported
    ones up to letter case. *)
Theorem X8_supported_iff_extension (file : string) :
  supported file = true
  <-> exists name ext,
        file = (name +:+ ext)%string /\ Str.lower ext ∈ SUPPORTED_FORMATS.
Proof.
  unfold supported, Str.endswith_any. rewrite existsb_exists. split.
  - intros (suf & Hin & Hend). apply SuffixFacts.endswith_inv in Hend as (pre & Hpre).
    apply SuffixFacts.lower_split in Hpre as (name & ext & -> & _ & Hext).
    exists name, ext. split; [reflexivity |]. rewrite Hext. apply list_elem_of_In. assumption.
  - intros (name & ext & -> & Hin). exists (Str.lower ext). split.
    + apply list_elem_of_In. assumption.
    + rewrite SuffixFacts.lower_append. apply SuffixFacts.endswith_append.
Qed.

(** ** The per-file dictionary *)

(** Recording never drops a key. *)
Lemma record_results_keeps trace : forall d file,
  is_Some (Dict.get file d) -> is_Some (Dict.get file (record_results trace d)).
Proof.
  induction trace as [| [f c] trace IH]; intros d file Hd; [assumption |].
  destruct c as [| c0 c]; [apply IH; assumption |].
  change (record_results ((f, c0 :: c) :: trace) d)
    with (record_results trace (Dict.set f (c0 :: c) d)).
  apply IH. destruct (decide (file = f)) as [-> | Hne].
  - rewrite DictFacts.get_set_eq. eauto.
  - rewrite DictFacts.get_set_ne by assumption. assumption.
Qed.

Lemma record_results_mem trace : forall d file colors,
  (file, colors) ∈ trace -> colors <> [] -> file ∈ Dict.keys (record_results trace d).
Proof.
  induction trace as [| [f c] trace IH]; intros d file colors Hin Hne.
  - apply elem_of_nil in Hin. contradiction.
  - apply elem_of_cons in Hin as [[= <- <-] | Hin].
    + destruct colors as [| c0 colors]; [contradiction |].
      change (record_results ((file, c0 :: colors) :: trace) d)
        with (record_results trace (Dict.set file (c0 :: colors) d)).
      destruct (record_results_keeps trace (Dict.set file (c0 :: colors) d) file)
        as [v Hv]; [rewrite DictFacts.get_set_eq; eauto |].
      eapply DictFacts.get_Some_keys. eassumption.
    + destruct c as [| c0 c]; eapply IH; eassumption.
Qed.

(** X9: without aggregation, the dictionary that [analyze_directory]
    returns has each key once, and a file name is a key exactly when a
    supported file of that name in the walk yielded colours. *)
Theorem X9_result_keys (E : Externals) dir k show (s : state E) :
  exists res,
    fst (analyze_directory E dir k show false s) = Returned (PerFile res)
    /\ NoDup (Dict.keys res)
    /\ forall file,
         file ∈ Dict.keys res
         <-> exists colors,
               colors <> []
               /\ (file, colors) ∈ fst (extract_each E k show
                                          (walk_jobs (os_walk E dir (env s))) s).
Proof.
  rewrite analyze_directory_per_file. cbn [fst]. eexists. split; [reflexivity |].
  split; [apply record_results_NoDup; constructor |].
  intros file. split.
  - intros Hin.
    destruct (Dict.get file (record_results
                (fst (extract_each E k show (walk_jobs (os_walk E dir (env s))) s)) []))
      as [colors |] eqn:Hget.
    + apply record_results_get in Hget as [Hget | [Hin' Hne]]; [discriminate |]. eauto.
    + exfalso. clear -Hin Hget. unfold Dict.keys in Hin.
      induction (record_results _ _) as [| [f c] d IH]; cbn in *.
      * apply elem_of_nil in Hin. contradiction.
      * destruct (String.eqb_spec file f) as [-> | Hne]; [discriminate |].
        apply elem_of_cons in Hin as [? | ?]; [contradiction | auto].
  - intros (colors & Hne & Hin). eapply record_results_mem; eassumption.
Qed.

(** ** [main] *)

Section MainFacts.
Context (E : Externals).

Lemma print_reports_run (d : Dict.t (list string)) : forall s : state E,
  for_each (fun '(image, colors) (_ : unit) => print (image_report image colors)) d tt s
  = (Returned tt,
     State (color_cache s) (log s)
           (stdout s ++ map (fun '(image, colors) => image_report image colors) d)
           (env s)).
Proof.
  induction d as [| [image colors] d IH]; intros s.
  - cbn. rewrite app_nil_r. destruct s; reflexivity.
  - cbn [for_each]. unfold bind. unfold print at 1. rewrite IH.
    cbn [color_cache log stdout env map]. rewrite <- app_assoc. reflexivity.
Qed.


End MainFacts.


(** X11: in directory mode without aggregation, [main] never raises and
    prints one report per entry of the dictionary of [analyze_directory],
    in the dictionary's order, under the bare file name. *)
Theorem X11_main_directory (E : Externals) paths c d k show lv (s : state E) :
  paths = None \/ paths = Some [] ->
  exists s',
    main E paths (Some (String c d)) k show false lv s = (Returned tt, s')
    /\ stdout s'
       = stdout s
         ++ map (fun '(image, colors) => image_report image colors)
                (record_results
                   (fst (extract_each E k show
                           (walk_jobs (os_walk E (String c d) (env s))) s)) []).
Proof.
  intros Hpaths.
  assert (Hrun : main E paths (Some (String c d)) k show false lv s
    = (result <- analyze_directory E (String c d) k show false ;;
       match result with
       | PerFile d0 =>
           for_each (fun '(image, colors) (_ : unit) => print (image_report image colors))
                    d0 tt
       | Aggregated _ => raise (Exception "'list' object has no attribute 'items'")
       end) s)
    by (destruct Hpaths as [-> | ->]; reflexivity).
  rewrite Hrun. unfold bind at 1. rewrite analyze_directory_per_file.
  rewrite print_reports_run. eexists. split; [reflexivity |]. cbn [stdout].
  f_equal.
  clear. generalize (walk_jobs (os_walk E (String c d) (env s))). intros jobs.
  revert s. induction jobs as [| [file path] jobs IH]; intros s; [reflexivity |].
  destruct (logged_extract_returns E k show path s) as (colors & s1 & H).
  rewrite (extract_each_cons E k show file path jobs s colors s1 H). cbn [snd].
  rewrite IH. unfold logged_extract in H.
  destruct (extract_colors_spec E path k show
              (State (color_cache s) (log s ++ [(INFO, AnalyzingImage path)])
                     (stdout s) (env s))) as (c' & s1' & Hrun' & Hspec).
  rewrite H in Hrun'. injection Hrun' as <- <-.
  apply extract_spec_stdout in Hspec. exact Hspec.
Qed.

Lemma X11_witness :
  exists s',
    main Demo.externals None (Some (String "d" EmptyString)) 1 false false DEBUG
         (Demo.start Demo.two_images)
    = (Returned tt, s')
    /\ stdout s'
       = stdout (Demo.start Demo.two_images)
         ++ map (fun '(image, colors) => image_report image colors)
                (record_results
                   (fst (extract_each Demo.externals 1 false
                           (walk_jobs (os_walk Demo.externals (String "d" EmptyString)
                                         (env (Demo.start Demo.two_images))))
                           (Demo.start Demo.two_images))) []).
Proof.
  apply (X11_main_directory Demo.externals None "d"%char EmptyString 1 false DEBUG
           (Demo.start Demo.two_images)).
  left. reflexivity.
Defined.

(** X12: in directory mode with aggregation, when no image yields colours,
    [main] does not fail: [analyze_directory] hands it the empty
    dictionary, and it prints the two headers with no colour line. *)
Theorem X12_main_aggregate_nothing (E : Externals) paths c d k show lv (s : state E) :
  paths = None \/ paths = Some [] ->
  palettes_of (fst (extract_each E k show
                      (walk_jobs (os_walk E (String c d) (env s))) s)) = [] ->
  exists s',
    main E paths (Some (String c d)) k show true lv s = (Returned tt, s')
    /\ stdout s'
       = stdout (snd (extract_each E k show
                        (walk_jobs (os_walk E (String c d) (env s))) s))
         ++ ["Aggregated dominant colors for all images:" +:+ Str.newline
             +:+ "Dominant colors extracted:" +:+ Str.newline]%string.
Proof.
  intros Hpaths Hnone.
  assert (Hrun : main E paths (Some (String c d)) k show true lv s
    = (result <- analyze_directory E (String c d) k show true ;;
       print ("Aggregated dominant colors for all images:" +:+ Str.newline
              +:+ format_colors (report_items result))) s)
    by (destruct Hpaths as [-> | ->]; reflexivity).
  rewrite Hrun. unfold bind at 1.
  rewrite (analyze_directory_aggregate E k show (String c d) s
             (palettes_of_empty_hex _ Hnone)), Hnone.
  unfold print. eexists. split; reflexivity.
Qed.

Lemma X12_witness :
  exists s',
    main Demo.externals None (Some (String "d" EmptyString)) 5 false true DEBUG
         (Demo.start Demo.broken)
    = (Returned tt, s')
    /\ stdout s'
       = stdout (snd (extract_each Demo.externals 5 false
                        (walk_jobs (os_walk Demo.externals (String "d" EmptyString)
                                      (env (Demo.start Demo.broken))))
                        (Demo.start Demo.broken)))
         ++ ["Aggregated dominant colors for all images:" +:+ Str.newline
             +:+ "Dominant colors extracted:" +:+ Str.newline]%string.
Proof.
  apply (X12_main_aggregate_nothing Demo.externals None "d"%char EmptyString 5 false DEBUG
           (Demo.start Demo.broken)).
  - left. reflexivity.
  - vm_compute. reflexivity.
Defined.

(** ** Sums and quotients in float64 *)

Module Binary64Arith.
Import Binary64.
















(** ** Division *)










(** ** The averaged channel *)








End Binary64Arith.

(** ** The aggregation never fails *)












